(** * promptui: the single-line prompt (prompt.go)

    A shallow embedding of [Prompt.Run] and [Prompt.prepareTemplates] and
    the properties of the interactive loop: submission gating, template
    selection in lazy and eager mode, confirm-mode resolution, the error
    paths and the effect of a run on the prompt's configuration.

    Conventions.
    - A Go [string] is a [string]; a [rune] is a [Z]; [[]rune] is [list Z].
    - A nil-able pointer, func or map is an [option].
    - [*PromptTemplates] is a location in a store of template sets, so
      that writes through [tpls] are visible to every holder of the
      pointer.
    - Every call the code makes on a collaborator (template parser, line
      editor, validator) is appended to a trace, in program order. *)

From Stdlib Require Import String Ascii ZArith List Bool Lia.
From stdpp Require Import base gmap strings list.
Import ListNotations.

Local Open Scope Z_scope.
Local Open Scope string_scope.

(** ** Runes and strings *)

Definition rune := Z.

(** A [*PromptTemplates]: the address of a cell of the store. *)
Abbreviation loc := nat (only parsing).

(** readline.CharEnter and readline.CharCtrlJ. *)
Definition CharEnter : rune := 13.
Definition CharCtrlJ : rune := 10.

(** The double quote and the line feed, as one-character strings. *)
Definition dq : string := String (ascii_of_nat 34) EmptyString.
Definition newline : string := String (ascii_of_nat 10) EmptyString.

(** strings.ToLower on the ASCII letters.  Bytes outside 'A'..'Z' are kept:
    Go also folds letters outside ASCII, none of which folds to an ASCII
    'y' or 'n', the only strings a lower-cased value is compared with. *)
Definition lower_ascii (c : ascii) : ascii :=
  let n := nat_of_ascii c in
  if ((65 <=? n)%nat && (n <=? 90)%nat)%bool then ascii_of_nat (n + 32) else c.

Fixpoint ToLower (s : string) : string :=
  match s with
  | EmptyString => EmptyString
  | String c s' => String (lower_ascii c) (ToLower s')
  end.

(** ** Errors

    Go compares errors by identity: the sentinels are constructors, every
    other error value is [ErrOther] with its message. *)
Inductive error : Type :=
| readline_ErrInterrupt          (* readline.ErrInterrupt *)
| io_EOF                         (* io.EOF *)
| ErrInterrupt                   (* promptui.ErrInterrupt *)
| ErrEOF                         (* promptui.ErrEOF *)
| ErrAbort                       (* promptui.ErrAbort *)
| ErrOther (msg : string).

Global Instance error_eq_dec : EqDecision error.
Proof. solve_decision. Defined.

(** ** Collaborators

    What prompt.go uses and does not define: the template engine, the
    cursor of cursor.go, the styling helpers and icons, the escape codes
    and the messages of the package's sentinel errors. *)
Class Externals : Type := {
  (** the dynamic type stored in [Label interface{}] *)
  LabelT : Type;
  (** [*template.Template] and [template.FuncMap] *)
  Template : Type;
  FuncMapT : Type;
  (** [Pointer], [io.Reader], [io.Writer] *)
  PointerT : Type;
  ReaderT : Type;
  WriterT : Type;
  (** the package variable [FuncMap] *)
  FuncMap : FuncMapT;
  (** [template.New("").Funcs(fm).Parse(src)] *)
  Parse : option FuncMapT → string → error + Template;
  (** [render(tpl, data)] with [data] a label or an error *)
  render : option Template → LabelT + error → string;
  (** [Styler(FGBold)], [Styler(FGFaint)] and the icons *)
  bold : string → string;
  faint : string → string;
  IconInitial : string;
  IconGood : string;
  IconBad : string;
  hideCursor : string;
  showCursor : string;
  (** [Error()] of the three sentinels of the package *)
  ErrInterrupt_msg : string;
  ErrEOF_msg : string;
  ErrAbort_msg : string;
  (** the cursor: [NewCursor], [Listen], [Get], [Format], [FormatMask],
      [GetMask]; [Listen] returns the cursor after the key as well *)
  Cursor : Type;
  NewCursor : string → PointerT → bool → Cursor;
  Listen : Cursor → list rune → Z → rune → (list rune * Z * bool) * Cursor;
  Get : Cursor → string;
  Format : Cursor → string;
  FormatMask : Cursor → rune → string;
  GetMask : Cursor → rune → string;
}.

Section Prompt.
Context {E : Externals}.

(** [err.Error()] *)
Definition Error (e : error) : string :=
  match e with
  | readline_ErrInterrupt => "Interrupt"
  | io_EOF => "EOF"
  | ErrInterrupt => ErrInterrupt_msg
  | ErrEOF => ErrEOF_msg
  | ErrAbort => ErrAbort_msg
  | ErrOther msg => msg
  end.

(** ** Data *)

(** A validator, by its verdict on a value: nil or an error.  Every call
    made on it is recorded in the trace, as [EvValidate], in program
    order.  A validator whose verdict depends on the calls made on it
    before is outside this model: a property that compares runs holds
    of such a validator only where the runs make the same calls. *)
Definition ValidateFunc := string → option error.

Record Prompt : Type := mkPrompt {
  Label : LabelT;
  Default : string;
  AllowEdit : bool;
  Validate : option ValidateFunc;
  Mask : rune;
  LazyValidation : bool;
  Templates : option loc;
  IsConfirm : bool;
  IsVimMode : bool;
  Pointer : PointerT;
  Stdin : ReaderT;
  Stdout : WriterT;
}.

(** The exported template sources and the six compiled templates. *)
Record PromptTemplates : Type := mkTemplates {
  T_Prompt : string;
  T_Confirm : string;
  T_Valid : string;
  T_Invalid : string;
  T_Success : string;
  T_Unvalidated : string;
  T_ValidationError : string;
  T_FuncMap : option FuncMapT;
  t_prompt : option Template;
  t_valid : option Template;
  t_invalid : option Template;
  t_validation : option Template;
  t_success : option Template;
  t_unvalidated : option Template;
}.

(** [&PromptTemplates{}] *)
Definition zeroTemplates : PromptTemplates :=
  mkTemplates "" "" "" "" "" "" "" None None None None None None None.

Global Instance PromptTemplates_inhabited : Inhabited PromptTemplates :=
  populate zeroTemplates.

(** readline.Config, without the two callbacks, which are [listen] and
    [filterInputRune] below. *)
Record Config : Type := mkConfig {
  cfg_Stdin : ReaderT;
  cfg_Stdout : WriterT;
  EnableMask : bool;
  MaskRune : rune;
  HistoryLimit : Z;
  VimMode : bool;
}.

(** Calls on the collaborators, in program order. *)
Inductive Event : Type :=
| EvParse (fm : option FuncMapT) (src : string)
| EvNewEngine (c : Config)
| EvWrite (b : string)
| EvSetPrompt (s : string)
| EvRefresh
| EvClose
| EvValidate (x : string).

(** The store of template sets. *)
Abbreviation Heap := (gmap loc PromptTemplates) (only parsing).

(** ** Field assignments *)

Definition set_Templates (v : option loc) (p : Prompt) : Prompt :=
  mkPrompt (Label p) (Default p) (AllowEdit p) (Validate p) (Mask p)
    (LazyValidation p) v (IsConfirm p) (IsVimMode p) (Pointer p)
    (Stdin p) (Stdout p).

Definition set_Default (v : string) (p : Prompt) : Prompt :=
  mkPrompt (Label p) v (AllowEdit p) (Validate p) (Mask p)
    (LazyValidation p) (Templates p) (IsConfirm p) (IsVimMode p) (Pointer p)
    (Stdin p) (Stdout p).

Definition set_LazyValidation (v : bool) (p : Prompt) : Prompt :=
  mkPrompt (Label p) (Default p) (AllowEdit p) (Validate p) (Mask p)
    v (Templates p) (IsConfirm p) (IsVimMode p) (Pointer p)
    (Stdin p) (Stdout p).

Definition set_Validate (v : option ValidateFunc) (p : Prompt) : Prompt :=
  mkPrompt (Label p) (Default p) (AllowEdit p) v (Mask p)
    (LazyValidation p) (Templates p) (IsConfirm p) (IsVimMode p) (Pointer p)
    (Stdin p) (Stdout p).

Definition set_T_Prompt (v : string) (t : PromptTemplates) :=
  mkTemplates v (T_Confirm t) (T_Valid t) (T_Invalid t) (T_Success t)
    (T_Unvalidated t) (T_ValidationError t) (T_FuncMap t) (t_prompt t)
    (t_valid t) (t_invalid t) (t_validation t) (t_success t) (t_unvalidated t).

Definition set_T_Confirm (v : string) (t : PromptTemplates) :=
  mkTemplates (T_Prompt t) v (T_Valid t) (T_Invalid t) (T_Success t)
    (T_Unvalidated t) (T_ValidationError t) (T_FuncMap t) (t_prompt t)
    (t_valid t) (t_invalid t) (t_validation t) (t_success t) (t_unvalidated t).

Definition set_T_Valid (v : string) (t : PromptTemplates) :=
  mkTemplates (T_Prompt t) (T_Confirm t) v (T_Invalid t) (T_Success t)
    (T_Unvalidated t) (T_ValidationError t) (T_FuncMap t) (t_prompt t)
    (t_valid t) (t_invalid t) (t_validation t) (t_success t) (t_unvalidated t).

Definition set_T_Invalid (v : string) (t : PromptTemplates) :=
  mkTemplates (T_Prompt t) (T_Confirm t) (T_Valid t) v (T_Success t)
    (T_Unvalidated t) (T_ValidationError t) (T_FuncMap t) (t_prompt t)
    (t_valid t) (t_invalid t) (t_validation t) (t_success t) (t_unvalidated t).

Definition set_T_Success (v : string) (t : PromptTemplates) :=
  mkTemplates (T_Prompt t) (T_Confirm t) (T_Valid t) (T_Invalid t) v
    (T_Unvalidated t) (T_ValidationError t) (T_FuncMap t) (t_prompt t)
    (t_valid t) (t_invalid t) (t_validation t) (t_success t) (t_unvalidated t).

Definition set_T_Unvalidated (v : string) (t : PromptTemplates) :=
  mkTemplates (T_Prompt t) (T_Confirm t) (T_Valid t) (T_Invalid t) (T_Success t)
    v (T_ValidationError t) (T_FuncMap t) (t_prompt t)
    (t_valid t) (t_invalid t) (t_validation t) (t_success t) (t_unvalidated t).

Definition set_T_ValidationError (v : string) (t : PromptTemplates) :=
  mkTemplates (T_Prompt t) (T_Confirm t) (T_Valid t) (T_Invalid t) (T_Success t)
    (T_Unvalidated t) v (T_FuncMap t) (t_prompt t)
    (t_valid t) (t_invalid t) (t_validation t) (t_success t) (t_unvalidated t).

Definition set_T_FuncMap (v : option FuncMapT) (t : PromptTemplates) :=
  mkTemplates (T_Prompt t) (T_Confirm t) (T_Valid t) (T_Invalid t) (T_Success t)
    (T_Unvalidated t) (T_ValidationError t) v (t_prompt t)
    (t_valid t) (t_invalid t) (t_validation t) (t_success t) (t_unvalidated t).

Definition set_t_prompt (v : option Template) (t : PromptTemplates) :=
  mkTemplates (T_Prompt t) (T_Confirm t) (T_Valid t) (T_Invalid t) (T_Success t)
    (T_Unvalidated t) (T_ValidationError t) (T_FuncMap t) v
    (t_valid t) (t_invalid t) (t_validation t) (t_success t) (t_unvalidated t).

Definition set_t_valid (v : option Template) (t : PromptTemplates) :=
  mkTemplates (T_Prompt t) (T_Confirm t) (T_Valid t) (T_Invalid t) (T_Success t)
    (T_Unvalidated t) (T_ValidationError t) (T_FuncMap t) (t_prompt t)
    v (t_invalid t) (t_validation t) (t_success t) (t_unvalidated t).

Definition set_t_invalid (v : option Template) (t : PromptTemplates) :=
  mkTemplates (T_Prompt t) (T_Confirm t) (T_Valid t) (T_Invalid t) (T_Success t)
    (T_Unvalidated t) (T_ValidationError t) (T_FuncMap t) (t_prompt t)
    (t_valid t) v (t_validation t) (t_success t) (t_unvalidated t).

Definition set_t_validation (v : option Template) (t : PromptTemplates) :=
  mkTemplates (T_Prompt t) (T_Confirm t) (T_Valid t) (T_Invalid t) (T_Success t)
    (T_Unvalidated t) (T_ValidationError t) (T_FuncMap t) (t_prompt t)
    (t_valid t) (t_invalid t) v (t_success t) (t_unvalidated t).

Definition set_t_success (v : option Template) (t : PromptTemplates) :=
  mkTemplates (T_Prompt t) (T_Confirm t) (T_Valid t) (T_Invalid t) (T_Success t)
    (T_Unvalidated t) (T_ValidationError t) (T_FuncMap t) (t_prompt t)
    (t_valid t) (t_invalid t) (t_validation t) v (t_unvalidated t).

Definition set_t_unvalidated (v : option Template) (t : PromptTemplates) :=
  mkTemplates (T_Prompt t) (T_Confirm t) (T_Valid t) (T_Invalid t) (T_Success t)
    (T_Unvalidated t) (T_ValidationError t) (T_FuncMap t) (t_prompt t)
    (t_valid t) (t_invalid t) (t_validation t) (t_success t) v.

(** ** prepareTemplates (prompt.go, 247-345)

    A computation over the store of template sets and the trace that
    either returns or leaves early with an error; what was written
    before an early return stays written. *)

Definition PrepState : Type := Heap * list Event.
Definition Prep (A : Type) : Type := PrepState -> (error + A) * PrepState.

Definition ret {A} (a : A) : Prep A := fun s => (inr a, s).

Definition bind {A B} (m : Prep A) (k : A -> Prep B) : Prep B :=
  fun s =>
    match m s with
    | (inl e, s') => (inl e, s')
    | (inr a, s') => k a s'
    end.

Notation "x <- m ;; k" := (bind m (fun x => k))
  (at level 100, m at next level, right associativity).
Notation "m ;;; k" := (bind m (fun _ => k))
  (at level 100, right associativity).

(** [&PromptTemplates{}]: a new cell holding the zero value. *)
Definition newLoc (h : Heap) : loc := fresh (dom h : gset nat).

Definition new : Prep loc :=
  fun s =>
    let l := newLoc s.1 in
    (inr l, (<[l := zeroTemplates]> s.1, s.2)).

(** [*tpls] *)
Definition load (tpls : loc) : Prep PromptTemplates :=
  fun s => (inr (s.1 !!! tpls), s).

(** [tpls.f = v], as the field assignment [upd]. *)
Definition assign (tpls : loc) (upd : PromptTemplates -> PromptTemplates)
  : Prep unit :=
  fun s => (inr tt, (<[tpls := upd (s.1 !!! tpls)]> s.1, s.2)).

(** [template.New("").Funcs(fm).Parse(src)], with [if err != nil { return err }]. *)
Definition parse (fm : option FuncMapT) (src : string) : Prep Template :=
  fun s =>
    let s' := (s.1, (s.2 ++ [EvParse fm src])%list) in
    match Parse fm src with
    | inl e => (inl e, s')
    | inr tpl => (inr tpl, s')
    end.

Definition when (b : bool) (m : Prep unit) : Prep unit :=
  if b then m else ret tt.

(** The built-in sources, as [fmt.Sprintf] builds them. *)
Definition confirmHint (p : Prompt) : string :=
  if String.eqb (ToLower (Default p)) "y" then "Y/n" else "y/N".

Definition defaultConfirm (p : Prompt) : string :=
  "{{ " +:+ dq +:+ IconInitial +:+ dq +:+ " | bold }} {{ . | bold }}? {{ "
    +:+ dq +:+ "[" +:+ confirmHint p +:+ "]" +:+ dq +:+ " | faint }} ".

Definition defaultLabel (icon : string) : string :=
  bold icon +:+ " {{ . | bold }}" +:+ bold ":" +:+ " ".

Definition defaultValidationError : string :=
  "{{ " +:+ dq +:+ ">>" +:+ dq +:+ " | red }} {{ . | red }} {{ " +:+ dq
    +:+ "Press any key to get back to the prompt" +:+ dq +:+ " | faint }}".

Definition defaultSuccess : string :=
  "{{ . | faint }}" +:+ faint ":" +:+ " ".

(** One block of prepareTemplates: fill the source when it is empty,
    parse it, return the error or keep the compiled template. *)
Definition compile (tpls : loc)
    (src : PromptTemplates -> string)
    (set_src : string -> PromptTemplates -> PromptTemplates)
    (dflt : string)
    (set_tpl : option Template -> PromptTemplates -> PromptTemplates)
  : Prep unit :=
  t <- load tpls ;;
  when (String.eqb (src t) "") (assign tpls (set_src dflt)) ;;;
  t <- load tpls ;;
  tpl <- parse (T_FuncMap t) (src t) ;;
  assign tpls (set_tpl (Some tpl)).

(** prepareTemplates from line 253 on, [tpls] being set. *)
Definition prepareFrom (p : Prompt) (tpls : loc) : Prep Prompt :=
  t <- load tpls ;;
  when (match T_FuncMap t with None => true | Some _ => false end)
       (assign tpls (set_T_FuncMap (Some FuncMap))) ;;;
  (if IsConfirm p
   then compile tpls T_Confirm set_T_Confirm (defaultConfirm p) set_t_prompt
   else compile tpls T_Prompt set_T_Prompt (defaultLabel IconInitial) set_t_prompt) ;;;
  compile tpls T_Valid set_T_Valid (defaultLabel IconGood) set_t_valid ;;;
  compile tpls T_Unvalidated set_T_Unvalidated (defaultLabel IconInitial)
    set_t_unvalidated ;;;
  compile tpls T_Invalid set_T_Invalid (defaultLabel IconBad) set_t_invalid ;;;
  compile tpls T_ValidationError set_T_ValidationError defaultValidationError
    set_t_validation ;;;
  compile tpls T_Success set_T_Success defaultSuccess set_t_success ;;;
  ret (set_Templates (Some tpls) p).

Definition prepareTemplates (p : Prompt) : Prep Prompt :=
  tpls <- match Templates p with
          | Some l => ret l
          | None => new
          end ;;
  prepareFrom p tpls.

(** ** The state of a run

    The cursor [cur], the variable [err] of Run, which the key filter
    assigns, and the trace. *)
Record RunState : Type := mkState {
  cur : Cursor;
  err : option error;
  trace : list Event;
}.

Definition emit (ev : Event) (st : RunState) : RunState :=
  mkState (cur st) (err st) (trace st ++ [ev])%list.

Definition set_cur (c : Cursor) (st : RunState) : RunState :=
  mkState c (err st) (trace st).

Definition set_err (e : option error) (st : RunState) : RunState :=
  mkState (cur st) e (trace st).

(** [validFn] (147-152): the validator, or the function that returns nil. *)
Definition validFn (p : Prompt) : ValidateFunc :=
  match Validate p with
  | Some f => f
  | None => fun _ => None
  end.

(** A call [validFn(x)]. *)
Definition call_validFn (p : Prompt) (x : string) (st : RunState)
  : option error * RunState :=
  (validFn p x, emit (EvValidate x) st).

(** [p.Mask != 0] *)
Definition masked (p : Prompt) : bool := negb (Z.eqb (Mask p) 0).

(** ** The listener (161-189)

    [T] is [*p.Templates], which nothing writes once prepareTemplates has
    returned. *)
Definition listen (p : Prompt) (T : PromptTemplates)
    (input : list rune) (pos : Z) (key : rune) (st : RunState)
  : (list rune * Z * bool) * RunState :=
  let '((_, _, keepOn), c) := Listen (cur st) input pos key in
  let st := set_cur c st in
  let '(prompt, st) :=
    if negb (LazyValidation p) then
      let '(verr, st) := call_validFn p (Get (cur st)) st in
      match verr with
      | Some _ => (render (t_invalid T) (inl (Label p)), st)
      | None =>
          let prompt := render (t_valid T) (inl (Label p)) in
          let prompt :=
            if IsConfirm p then render (t_prompt T) (inl (Label p)) else prompt in
          (prompt, st)
      end
    else (render (t_unvalidated T) (inl (Label p)), st) in
  let echo := Format (cur st) in
  let echo := if masked p then FormatMask (cur st) (Mask p) else echo in
  let prompt := prompt +:+ echo in
  let st := emit (EvSetPrompt prompt) st in
  let st := emit EvRefresh st in
  (([], 0, keepOn), st).

(** ** The key filter (192-204) *)
Definition filterInputRune (p : Prompt) (T : PromptTemplates)
    (r : rune) (st : RunState) : (rune * bool) * RunState :=
  if Z.eqb r CharEnter || Z.eqb r CharCtrlJ then
    let '(verr, st) := call_validFn p (Get (cur st)) st in
    let st := set_err verr st in
    match verr with
    | Some e =>
        let validation := render (t_validation T) (inr e) in
        ((r, false), emit (EvSetPrompt validation) st)
    | None => ((r, true), st)
    end
  else ((r, true), st).

(** ** The line editor

    The engine is the readline library, a collaborator; [Input],
    [readLoop] and [ReadLine] are its contract with the two callbacks
    (spec 4.4 and 6). *)

(** Modelled from the spec: what the engine reads.  Each rune comes with
    the buffer and position the engine would hand to the listener for
    it; an error ends the read (the interrupt signal, the end of the
    stream, an I/O failure). *)
Inductive Input : Type :=
| InKey (r : rune) (line : list rune) (pos : Z)
| InErr (e : error).

Definition isSubmit (r : rune) : bool := Z.eqb r CharEnter || Z.eqb r CharCtrlJ.

(** Modelled from the spec: the blocking read.  A rune goes to the key
    filter first; a rejected rune is dropped; an accepted Enter or
    Ctrl-J completes the read; any other accepted rune goes to the
    listener.  A stream that runs dry ends the read with io.EOF. *)
Fixpoint readLoop (p : Prompt) (T : PromptTemplates)
    (script : list Input) (st : RunState)
  : (list rune * option error) * RunState :=
  match script with
  | [] => (([], Some io_EOF), st)
  | InErr e :: _ => (([], Some e), st)
  | InKey r line pos :: rest =>
      let '((r, process), st) := filterInputRune p T r st in
      if negb process then readLoop p T rest st
      else if isSubmit r then ((line, None), st)
      else
        let '(_, st) := listen p T line pos r st in
        readLoop p T rest st
  end.

(** Modelled from the spec: [rl.ReadLine()].  The listener is called
    once with no key, which shows the prompt, before the first rune is
    read. *)
Definition ReadLine (p : Prompt) (T : PromptTemplates)
    (script : list Input) (st : RunState)
  : (list rune * option error) * RunState :=
  let '(_, st) := listen p T [] 0 0 st in
  readLoop p T script st.

(** ** Run (123-245) *)

(** What the outside decides in a run: whether the engine can be
    constructed, and what it reads. *)
Record World : Type := mkWorld {
  new_err : option error;
  keys : list Input;
}.

(** What a run leaves: the two results, the prompt and the store after
    it, the trace, and whether it ended in a nil dereference. *)
Record RunResult : Type := mkResult {
  rr_value : string;
  rr_err : option error;
  rr_prompt : Prompt;
  rr_heap : Heap;
  rr_trace : list Event;
  rr_panic : bool;
}.

(** The readline.Config literal (131-138). *)
Definition config (p : Prompt) : Config :=
  mkConfig (Stdin p) (Stdout p) (masked p) (Mask p) (-1) (IsVimMode p).

(** [input], [eraseDefault] and [cur] (154-159). *)
Definition initialInput (p : Prompt) : string :=
  if IsConfirm p then "" else Default p.

Definition eraseDefault (p : Prompt) : bool :=
  negb (String.eqb (initialInput p) "") && negb (AllowEdit p).

Definition initialCursor (p : Prompt) : Cursor :=
  NewCursor (initialInput p) (Pointer p) (eraseDefault p).

(** [*p.Templates] *)
Definition deref (h : Heap) (tpls : option loc) : option PromptTemplates :=
  match tpls with
  | Some l => Some (h !!! l)
  | None => None
  end.

(** Up to the blocking read (124-159): an early return, or the prompt,
    the store, [*p.Templates] and the state the read starts from. *)
Definition startRun (p : Prompt) (h : Heap) (w : World)
  : RunResult + (Prompt * Heap * PromptTemplates * RunState) :=
  match prepareTemplates p (h, []) with
  | (inl e, (h, tr)) => inl (mkResult "" (Some e) p h tr false)
  | (inr p, (h, tr)) =>
      let c := config p in
      let tr := (tr ++ [EvNewEngine c])%list in
      match new_err w with
      | Some e => inl (mkResult "" (Some e) p h tr false)
      | None =>
          let tr := (tr ++ [EvWrite hideCursor])%list in
          let st := mkState (initialCursor p) None tr in
          match deref h (Templates p) with
          | None => inl (mkResult "" None p h tr true)
          | Some T => inr (p, h, T, st)
          end
      end
  end.

(** The error of the read, as Run returns it (209-217). *)
Definition engineError (e : error) : error :=
  let e :=
    match e with
    | readline_ErrInterrupt => ErrInterrupt
    | io_EOF => ErrEOF
    | _ => e
    end in
  if String.eqb (Error e) "Interrupt" then ErrInterrupt else e.

(** [lowerDefault == "y" && inputLower == "n" || lowerDefault != "y" && inputLower != "y"] *)
Definition confirmAborts (lowerDefault inputLower : string) : bool :=
  (String.eqb lowerDefault "y" && String.eqb inputLower "n")
  || (negb (String.eqb lowerDefault "y") && negb (String.eqb inputLower "y")).

(** After the blocking read (206-244). *)
Definition finishRun (p : Prompt) (h : Heap) (T : PromptTemplates)
    (rd : list rune * option error) (st : RunState) : RunResult :=
  let st := set_err rd.2 st in
  match err st with
  | Some e => mkResult "" (Some (engineError e)) p h (trace st) false
  | None =>
      let echo := Get (cur st) in
      let echo := if masked p then GetMask (cur st) (Mask p) else echo in
      let prompt := render (t_success T) (inl (Label p)) in
      let prompt := prompt +:+ echo in
      let '(prompt, st) :=
        if IsConfirm p then
          let lowerDefault := ToLower (Default p) in
          let inputLower := ToLower (Get (cur st)) in
          if confirmAborts lowerDefault inputLower
          then (render (t_invalid T) (inl (Label p)), set_err (Some ErrAbort) st)
          else (prompt, st)
        else (prompt, st) in
      let st := emit (EvWrite prompt) st in
      let st := emit (EvWrite newline) st in
      let st := emit (EvWrite showCursor) st in
      let st := emit EvClose st in
      mkResult (Get (cur st)) (err st) p h (trace st) false
  end.

Definition Run (p : Prompt) (h : Heap) (w : World) : RunResult :=
  match startRun p h w with
  | inl r => r
  | inr (p, h, T, st) =>
      let '(rd, st) := ReadLine p T (keys w) st in
      finishRun p h T rd st
  end.

(** The state a run is in when its blocking read returns, with what the
    read returned; [None] when the run ended before the read. *)
Definition readReturn (p : Prompt) (h : Heap) (w : World)
  : option ((list rune * option error) * RunState) :=
  match startRun p h w with
  | inl _ => None
  | inr (p, h, T, st) => Some (ReadLine p T (keys w) st)
  end.

End Prompt.

Abbreviation Heap := (gmap loc PromptTemplates) (only parsing).

(** * The vocabulary of the properties *)

Section Vocabulary.
Context {E : Externals}.

(** ** The interactive loop *)

(** A key of the script that is neither Enter nor Ctrl-J. *)
Definition nonSubmit (i : Input) : Prop :=
  match i with
  | InKey r _ _ => isSubmit r = false
  | InErr _ => True
  end.

(** What the listener asks of the engine in lazy mode: a prompt that
    starts with the unvalidated template, or a refresh. *)
Definition unvalidatedEvent (p : Prompt) (T : PromptTemplates) (ev : Event)
  : Prop :=
  ev = EvRefresh
  ∨ ∃ echo, ev = EvSetPrompt (render (t_unvalidated T) (inl (Label p)) +:+ echo).

(** The calls of the interactive loop. *)
Definition loopEvent (ev : Event) : Prop :=
  match ev with
  | EvValidate _ | EvSetPrompt _ | EvRefresh => True
  | _ => False
  end.

(** The line Run writes when the read returned no error. *)
Definition finalLine (p : Prompt) (T : PromptTemplates) (c : Cursor) : string :=
  if IsConfirm p && confirmAborts (ToLower (Default p)) (ToLower (Get c))
  then render (t_invalid T) (inl (Label p))
  else render (t_success T) (inl (Label p))
         +:+ (if masked p then GetMask c (Mask p) else Get c).

(** The acceptance rule of confirm mode, on the lower-cased default and
    answer. *)
Definition accepts (D A : string) : Prop :=
  (D = "y" ∧ A ≠ "n") ∨ (D ≠ "y" ∧ A = "y").

(** The lower-cased default is y. *)
Definition defaultYes (D : string) : bool := String.eqb (ToLower D) "y".

(** A result with the default text of its prompt replaced. *)
Definition withDefault (D : string) (r : RunResult) : RunResult :=
  mkResult (rr_value r) (rr_err r) (set_Default D (rr_prompt r))
    (rr_heap r) (rr_trace r) (rr_panic r).

(** ** Template preparation *)

Definition isParse (ev : Event) : Prop :=
  match ev with
  | EvParse _ _ => True
  | _ => False
  end.

(** The last event of a trace is the parse that returned [e]. *)
Definition failedParse (e : error) (tr : list Event) : Prop :=
  ∃ tr0 fm src, tr = (tr0 ++ [EvParse fm src])%list ∧ Parse fm src = inl e.

Definition sources : list (PromptTemplates -> string) :=
  [T_Prompt; T_Confirm; T_Valid; T_Invalid; T_Success; T_Unvalidated;
   T_ValidationError].

Definition compiled : list (PromptTemplates -> option Template) :=
  [t_prompt; t_valid; t_invalid; t_validation; t_success; t_unvalidated].

(** [t'] is [t] after assignments that fill only what was empty: a
    non-empty source and a non-nil FuncMap are kept, a compiled
    template stays compiled. *)
Definition keeps (t t' : PromptTemplates) : Prop :=
  Forall (fun src => src t ≠ "" -> src t' = src t) sources
  ∧ (T_FuncMap t ≠ None -> T_FuncMap t' = T_FuncMap t)
  ∧ Forall (fun tpl => tpl t ≠ None -> tpl t' ≠ None) compiled.

(** The store and the trace after a step on the template set at [l]:
    other cells are untouched, the cell keeps what it had, the trace
    grows by parse events only. *)
Definition extends (l : loc) (s s' : PrepState) : Prop :=
  (∀ l', l' ≠ l -> s'.1 !! l' = s.1 !! l')
  ∧ keeps (s.1 !!! l) (s'.1 !!! l)
  ∧ ∃ evs, s'.2 = (s.2 ++ evs)%list ∧ Forall isParse evs.

(** Every step of a computation extends the state. *)
Definition sound (l : loc) {A} (m : Prep A) : Prop :=
  ∀ s, extends l s (m s).2.

(** The state in which [compile] parses. *)
Definition filledAt (l : loc)
    (src : PromptTemplates -> string)
    (set_src : string -> PromptTemplates -> PromptTemplates)
    (dflt : string) (s : PrepState) : PrepState :=
  if String.eqb (src (s.1 !!! l)) ""
  then (<[l := set_src dflt (s.1 !!! l)]> s.1, s.2)
  else s.

Local Notation "m ;;; k" := (bind m (fun _ => k))
  (at level 100, right associativity).

(** The blocks of prepareTemplates after the first, and its last two
    lines. *)
Definition compileRest (p : Prompt) (tpls : loc) : Prep Prompt :=
  compile tpls T_Valid set_T_Valid (defaultLabel IconGood) set_t_valid ;;;
  compile tpls T_Unvalidated set_T_Unvalidated (defaultLabel IconInitial)
    set_t_unvalidated ;;;
  compile tpls T_Invalid set_T_Invalid (defaultLabel IconBad) set_t_invalid ;;;
  compile tpls T_ValidationError set_T_ValidationError defaultValidationError
    set_t_validation ;;;
  compile tpls T_Success set_T_Success defaultSuccess set_t_success ;;;
  ret (set_Templates (Some tpls) p).

(** The six blocks of prepareTemplates and its last two lines. *)
Definition compileAll (p : Prompt) (tpls : loc) : Prep Prompt :=
  (if IsConfirm p
   then compile tpls T_Confirm set_T_Confirm (defaultConfirm p) set_t_prompt
   else compile tpls T_Prompt set_T_Prompt (defaultLabel IconInitial) set_t_prompt) ;;;
  compileRest p tpls.

(** The state after [if tpls.FuncMap == nil { tpls.FuncMap = FuncMap }]. *)
Definition withFuncMap (l : loc) (s : PrepState) : PrepState :=
  match T_FuncMap (s.1 !!! l) with
  | None => (<[l := set_T_FuncMap (Some FuncMap) (s.1 !!! l)]> s.1, s.2)
  | Some _ => s
  end.

(** The pointer prepareTemplates works on, and the state once it is set. *)
Definition tplsOf (p : Prompt) (h : Heap) : loc :=
  match Templates p with
  | Some l => l
  | None => newLoc h
  end.

Definition allocated (p : Prompt) (s : PrepState) : PrepState :=
  match Templates p with
  | Some _ => s
  | None => (<[newLoc s.1 := zeroTemplates]> s.1, s.2)
  end.

(** The template set prepareTemplates starts from. *)
Definition givenTemplates (p : Prompt) (h : Heap) : PromptTemplates :=
  match Templates p with
  | Some l => h !!! l
  | None => zeroTemplates
  end.

Definition onResult {A B} (f : A -> B) (r : (error + A) * PrepState)
  : (error + B) * PrepState :=
  match r with
  | (inl e, s) => (inl e, s)
  | (inr a, s) => (inr (f a), s)
  end.

End Vocabulary.

Ltac keeps_tac :=
  unfold keeps, sources, compiled; cbn;
  repeat split; repeat constructor; cbn; intros; congruence.

Ltac in_list :=
  repeat first [apply list_elem_of_here | apply list_elem_of_further].

(** * A concrete set of collaborators

    Used to run the model on inputs: templates are kept as their source,
    parsing fails on a source that opens with a stray [{{end}}], rendering
    is the source followed by the value in brackets. *)
Module Demo.

Definition rune_ascii (r : rune) : ascii := ascii_of_N (Z.to_N r).

Definition runes_string (l : list rune) : string :=
  fold_right (fun r s => String (rune_ascii r) s) EmptyString l.

(** Modelled from the spec: the cursor of cursor.go, which prompt.go
    uses and does not define (spec 4.1).  It owns the candidate, an edit
    position and the erase-on-edit flag. *)
Record cursor : Type := mkCursor {
  c_input : list rune;
  c_position : nat;
  c_erase : bool;
}.

Definition KeyBackspace : rune := 127.
Definition KeyCtrlH : rune := 8.
Definition KeyForward : rune := 6.
Definition KeyBackward : rune := 2.

(** Modelled from the spec: initialize, the candidate is the default
    text and the position its end. *)
Definition c_new (input : string) (_ : unit) (erase : bool) : cursor :=
  let l := map (fun a => Z.of_N (N_of_ascii a)) (list_ascii_of_string input) in
  mkCursor l (length l) erase.

Definition c_insert (c : cursor) (line : list rune) : cursor :=
  mkCursor
    (take (c_position c) (c_input c) ++ line ++ drop (c_position c) (c_input c))%list
    (c_position c + length line) (c_erase c).

Definition c_backspace (c : cursor) : cursor :=
  mkCursor
    (take (c_position c - 1) (c_input c) ++ drop (c_position c) (c_input c))%list
    (c_position c - 1) (c_erase c).

Definition c_move (c : cursor) (forward : bool) : cursor :=
  mkCursor (c_input c)
    (if forward then Nat.min (length (c_input c)) (c_position c + 1)
     else (c_position c - 1)%nat)
    (c_erase c).

(** Modelled from the spec: onKey.  No key changes nothing and Enter
    stops the editing.  With erase-on-edit set, the first other key
    discards the default text, a printable one becoming the candidate.
    Otherwise a key inserts what the engine read at the position,
    deletes before it, or moves it. *)
Definition c_listen (c : cursor) (line : list rune) (pos : Z) (key : rune)
  : (list rune * Z * bool) * cursor :=
  let out (c : cursor) (keepOn : bool) :=
    ((c_input c, Z.of_nat (c_position c), keepOn), c) in
  let edit := Z.eqb key KeyBackspace || Z.eqb key KeyCtrlH
              || Z.eqb key KeyForward || Z.eqb key KeyBackward in
  if Z.eqb key 0 then out c true
  else if Z.eqb key CharEnter then out c false
  else if c_erase c then
    out (if edit then mkCursor [] 0 false else mkCursor [key] 1 false) true
  else if Z.eqb key KeyBackspace || Z.eqb key KeyCtrlH then
    out (c_backspace c) true
  else if Z.eqb key KeyForward then out (c_move c true) true
  else if Z.eqb key KeyBackward then out (c_move c false) true
  else out (c_insert c line) true.

(** Modelled from the spec: currentValue. *)
Definition c_get (c : cursor) : string := runes_string (c_input c).

(** Modelled from the spec: the masked echo and the masked final value,
    one mask character for each character of the candidate. *)
Definition c_mask (c : cursor) (m : rune) : string :=
  runes_string (map (fun _ => m) (c_input c)).

Definition show (d : string + error) : string :=
  match d with
  | inl l => l
  | inr readline_ErrInterrupt => "Interrupt"
  | inr io_EOF => "EOF"
  | inr ErrInterrupt => "^C"
  | inr ErrEOF => "^D"
  | inr ErrAbort => ""
  | inr (ErrOther msg) => msg
  end.

Definition demo_parse (fm : option unit) (src : string) : error + string :=
  if String.prefix "{{end}}" src
  then inl (ErrOther "template: unexpected {{end}}")
  else inr src.

Definition demo_render (tpl : option string) (d : string + error) : string :=
  match tpl with
  | Some src => src +:+ "[" +:+ show d +:+ "]"
  | None => show d
  end.

#[global] Instance demo : Externals := {|
  LabelT := string;
  Template := string;
  FuncMapT := unit;
  PointerT := unit;
  ReaderT := unit;
  WriterT := unit;
  FuncMap := tt;
  Parse := demo_parse;
  render := demo_render;
  bold := fun s => "<b>" +:+ s +:+ "</b>";
  faint := fun s => "<f>" +:+ s +:+ "</f>";
  IconInitial := "?";
  IconGood := "+";
  IconBad := "x";
  hideCursor := "<hide>";
  showCursor := "<show>";
  ErrInterrupt_msg := "^C";
  ErrEOF_msg := "^D";
  ErrAbort_msg := "";
  Cursor := cursor;
  NewCursor := c_new;
  Listen := c_listen;
  Get := c_get;
  Format := c_get;
  FormatMask := c_mask;
  GetMask := c_mask;
|}.

(** A validator that wants a non-empty value. *)
Definition nonEmpty : ValidateFunc :=
  fun x => if String.eqb x "" then Some (ErrOther "empty") else None.

Definition prompt0 : Prompt :=
  mkPrompt "Name" "" false None 0 false None false false tt tt tt.

Definition confirm (dflt : string) : Prompt :=
  mkPrompt "Sure" dflt false None 0 false None true false tt tt tt.

(** Typing one character: the engine hands the listener its one-rune buffer. *)
Definition type (a : ascii) : Input :=
  let r := Z.of_N (N_of_ascii a) in InKey r [r] 1.

Definition enter : Input := InKey CharEnter [] 0.

End Demo.

(** * Runs of the model *)

Section Runs.
Import Demo.

(** A prompt that validates lazily and wants a non-empty value. *)
Definition lazyPrompt : Prompt :=
  mkPrompt "Name" "" false (Some nonEmpty) 0 true None false false tt tt tt.

(** The same prompt validating on every key. *)
Definition eagerPrompt : Prompt := set_LazyValidation false lazyPrompt.

(** A template set with its six compiled templates. *)
Definition someTemplates : PromptTemplates :=
  mkTemplates "" "" "" "" "" "" "" (Some tt)
    (Some "P") (Some "V") (Some "I") (Some "E") (Some "S") (Some "U").

Definition emptyState : RunState := mkState (E := demo) (c_new "" tt false) None [].

(** What the read of a run returns, and the state it returns in. *)
Definition readOf (p : Prompt) (w : World)
  : (list rune * option error) * RunState :=
  match readReturn p ∅ w with
  | Some x => x
  | None => (([], None), emptyState)
  end.

Definition sayYes : World := mkWorld None [type "Y"; enter].
Definition sayNo : World := mkWorld None [type "n"; enter].
Definition endOfInput : World := mkWorld None [type "a"; InErr io_EOF].
Definition interrupted : World :=
  mkWorld None [type "a"; InErr readline_ErrInterrupt].

Definition returned (p : Prompt) (w : World) : bool :=
  match readReturn p ∅ w with
  | Some _ => true
  | None => false
  end.

End Runs.

Definition yesRead := readOf (Demo.confirm "N") sayYes.
Definition noRead := readOf (Demo.confirm "Y") sayNo.
Definition eofRead := readOf Demo.prompt0 endOfInput.
Definition intRead := readOf Demo.prompt0 interrupted.

(** * The vocabulary of further properties *)

Section Cells.
Context {E : Externals}.

(** ** prepareTemplates on one template set

    A computation of prepareTemplates reads and writes the one cell
    [tpls] points to: as a function of the template set in that cell it
    gives a result, the template set after it and the parse calls it
    made. *)
Definition Cell (A : Type) : Type :=
  PromptTemplates -> (error + A) * PromptTemplates * list Event.

Definition retT {A} (a : A) : Cell A := fun T => (inr a, T, []).

Definition bindT {A B} (f : Cell A) (g : A -> Cell B) : Cell B :=
  fun T =>
    match f T with
    | (inl e, T', evs) => (inl e, T', evs)
    | (inr a, T', evs) =>
        let '(r, T'', evs') := g a T' in (r, T'', (evs ++ evs')%list)
    end.

(** [m] acts on the cell at [l] as [f]. *)
Definition acts (l : loc) {A} (m : Prep A) (f : Cell A) : Prop :=
  ∀ s,
    (m s).1 = (f (s.1 !!! l)).1.1
    ∧ (m s).2.1 !!! l = (f (s.1 !!! l)).1.2
    ∧ (m s).2.2 = (s.2 ++ (f (s.1 !!! l)).2)%list.

(** The source a block parses: the one given, or the built-in one when
    none is given. *)
Definition effective (given dflt : string) : string :=
  if String.eqb given "" then dflt else given.

(** One block of prepareTemplates on a template set: the source field
    ends as the source parsed. *)
Definition compileT
    (src : PromptTemplates -> string)
    (set_src : string -> PromptTemplates -> PromptTemplates)
    (dflt : string)
    (set_tpl : option Template -> PromptTemplates -> PromptTemplates)
  : Cell unit :=
  fun T =>
    let T1 := set_src (effective (src T) dflt) T in
    let ev := [EvParse (T_FuncMap T1) (src T1)] in
    match Parse (T_FuncMap T1) (src T1) with
    | inl e => (inl e, T1, ev)
    | inr tpl => (inr tt, set_tpl (Some tpl) T1, ev)
    end.

Local Notation "m ;;; k" := (bindT m (fun _ => k))
  (at level 100, right associativity).

(** The six blocks and the last two lines on a template set. *)
Definition compileAllT (p : Prompt) (tpls : loc) : Cell Prompt :=
  (if IsConfirm p
   then compileT T_Confirm set_T_Confirm (defaultConfirm p) set_t_prompt
   else compileT T_Prompt set_T_Prompt (defaultLabel IconInitial) set_t_prompt) ;;;
  compileT T_Valid set_T_Valid (defaultLabel IconGood) set_t_valid ;;;
  compileT T_Unvalidated set_T_Unvalidated (defaultLabel IconInitial)
    set_t_unvalidated ;;;
  compileT T_Invalid set_T_Invalid (defaultLabel IconBad) set_t_invalid ;;;
  compileT T_ValidationError set_T_ValidationError defaultValidationError
    set_t_validation ;;;
  compileT T_Success set_T_Success defaultSuccess set_t_success ;;;
  retT (set_Templates (Some tpls) p).

(** The six sources prepareTemplates parses for a prompt whose template
    set is [G], in the order it parses them. *)
Definition slotSources (p : Prompt) (G : PromptTemplates) : list string :=
  [ if IsConfirm p then effective (T_Confirm G) (defaultConfirm p)
    else effective (T_Prompt G) (defaultLabel IconInitial);
    effective (T_Valid G) (defaultLabel IconGood);
    effective (T_Unvalidated G) (defaultLabel IconInitial);
    effective (T_Invalid G) (defaultLabel IconBad);
    effective (T_ValidationError G) defaultValidationError;
    effective (T_Success G) defaultSuccess ].

(** The function map the sources are parsed with. *)
Definition usedFuncMap (G : PromptTemplates) : option FuncMapT :=
  match T_FuncMap G with
  | Some fm => Some fm
  | None => Some FuncMap
  end.

(** The template set prepareTemplates leaves when the six sources parse
    to [tp], [tv], [tu], [ti], [te] and [ts]. *)
Definition preparedTemplates (p : Prompt) (G : PromptTemplates)
    (tp tv tu ti te ts : Template) : PromptTemplates :=
  mkTemplates
    (if IsConfirm p then T_Prompt G
     else effective (T_Prompt G) (defaultLabel IconInitial))
    (if IsConfirm p then effective (T_Confirm G) (defaultConfirm p)
     else T_Confirm G)
    (effective (T_Valid G) (defaultLabel IconGood))
    (effective (T_Invalid G) (defaultLabel IconBad))
    (effective (T_Success G) defaultSuccess)
    (effective (T_Unvalidated G) (defaultLabel IconInitial))
    (effective (T_ValidationError G) defaultValidationError)
    (usedFuncMap G)
    (Some tp) (Some tv) (Some ti) (Some te) (Some ts) (Some tu).

(** [if tpls.FuncMap == nil { tpls.FuncMap = FuncMap }] on a template set. *)
Definition fillFuncMap (G : PromptTemplates) : PromptTemplates :=
  match T_FuncMap G with
  | None => set_T_FuncMap (Some FuncMap) G
  | Some _ => G
  end.

(** prepareTemplates from line 253 on, on a template set. *)
Definition prepareT (p : Prompt) (tpls : loc) : Cell Prompt :=
  fun G => compileAllT p tpls (fillFuncMap G).

(** The source fields prepareTemplates parses, in the order it parses
    them, and the one of Prompt and Confirm it does not read. *)
Definition slotFields (p : Prompt) : list (PromptTemplates -> string) :=
  [ if IsConfirm p then T_Confirm else T_Prompt;
    T_Valid; T_Unvalidated; T_Invalid; T_ValidationError; T_Success ].

Definition unusedField (p : Prompt) : PromptTemplates -> string :=
  if IsConfirm p then T_Prompt else T_Confirm.

(** [src] parses under [fm]. *)
Definition parses (fm : option FuncMapT) (src : string) : Prop :=
  ∃ tpl, Parse fm src = inr tpl.

(** ** Runs *)

(** A key of the script that is not Enter or Ctrl-J, so that it reaches
    the listener. *)
Definition plainKey (i : Input) : Prop :=
  match i with
  | InKey r _ _ => isSubmit r = false
  | InErr _ => False
  end.

(** The cursor after the listener has seen the keys of a script. *)
Fixpoint afterKeys (c : Cursor) (script : list Input) : Cursor :=
  match script with
  | [] => c
  | InKey r line pos :: rest => afterKeys (Listen c line pos r).2 rest
  | InErr _ :: rest => afterKeys c rest
  end.

(** The cursor after the call the read makes on the listener before the
    first key. *)
Definition firstCursor (p : Prompt) : Cursor :=
  (Listen (initialCursor p) [] 0 0).2.

(** What a run hands to the engine for the terminal, in order: the
    strings of [rl.Write], the prompt lines of [rl.SetPrompt] and the
    calls of [rl.Refresh]. *)
Definition outputs (tr : list Event) : list Event :=
  flat_map (fun ev => match ev with
                      | EvWrite _ | EvSetPrompt _ | EvRefresh => [ev]
                      | _ => []
                      end) tr.

(** A redraw of the prompt line: [rl.SetPrompt] or [rl.Refresh]. *)
Definition redraw (ev : Event) : Prop :=
  match ev with
  | EvSetPrompt _ | EvRefresh => True
  | _ => False
  end.

(** The strings a trace passes to [rl.Write], and the values it has
    validated. *)
Definition writes (tr : list Event) : list string :=
  flat_map (fun ev => match ev with EvWrite b => [b] | _ => [] end) tr.

Definition validations (tr : list Event) : list string :=
  flat_map (fun ev => match ev with EvValidate x => [x] | _ => [] end) tr.

(** The Enter and Ctrl-J keys of a script. *)
Fixpoint submits (script : list Input) : nat :=
  match script with
  | [] => 0%nat
  | InKey r _ _ :: rest => ((if isSubmit r then 1 else 0) + submits rest)%nat
  | InErr _ :: rest => submits rest
  end.

(** Two prompts that differ at most in the label, the mask, the vi-mode
    flag and the two streams. *)
Definition sameInputs (p q : Prompt) : Prop :=
  Default q = Default p ∧ AllowEdit q = AllowEdit p
  ∧ Validate q = Validate p ∧ Templates q = Templates p
  ∧ IsConfirm q = IsConfirm p ∧ Pointer q = Pointer p
  ∧ LazyValidation q = LazyValidation p.

(** The templates of a prompt parse. *)
Definition templatesParse (p : Prompt) (h : Heap) : Prop :=
  Forall (parses (usedFuncMap (givenTemplates p h)))
    (slotSources p (givenTemplates p h)).

(** y or Y, n or N. *)
Definition isYes (s : string) : Prop := s = "y" ∨ s = "Y".
Definition isNo (s : string) : Prop := s = "n" ∨ s = "N".

End Cells.

(** ** Further runs of the model *)

Section MoreRuns.
Import Demo.

(** The error of a result, nil when there is none. *)
Definition errOf {A} (r : error + A) : option error :=
  match r with
  | inl e => Some e
  | inr _ => None
  end.

(** A template set whose Invalid source does not parse, and a prompt
    that points to it. *)
Definition badTemplates : PromptTemplates :=
  set_T_Invalid "{{end}} no" zeroTemplates.
Definition badHeap : Heap := {[ 0%nat := badTemplates ]}.
Definition badPrompt : Prompt := set_Templates (Some 0%nat) prompt0.

(** A prompt that differs from [lazyPrompt] in what it shows. *)
Definition maskedPrompt : Prompt :=
  mkPrompt "Password" "" false (Some nonEmpty) 42 true None false true tt tt tt.

Definition typeAB : World :=
  mkWorld None [type "a"; type "b"; enter; type "c"].
Definition enterFirst : World := mkWorld None [enter; type "a"; enter].
Definition justEnter : World := mkWorld None [enter].
Definition noTerminal : World :=
  mkWorld (Some (ErrOther "not a terminal")) [type "a"; enter].
Definition brokenRead : World :=
  mkWorld None [type "a"; InErr (ErrOther "broken pipe")].

End MoreRuns.

(** The confirm prompt with default Y after its templates are prepared,
    and the state the preparation leaves. *)
Definition preparedConfirm : Prompt :=
  set_Templates (Some (tplsOf (Demo.confirm "Y") ∅)) (Demo.confirm "Y").
Definition preparedState := (prepareTemplates (Demo.confirm "Y") (∅, [])).2.

Definition typedRead := readOf lazyPrompt enterFirst.
Definition enterRead := readOf (Demo.confirm "Y") justEnter.
Definition brokenReadOf := readOf Demo.prompt0 brokenRead.

(** * Properties *)

(** A string lower-cases to y exactly when it is y in either case, and
    likewise for n. *)
Lemma ToLower_y (s : string) : ToLower s = "y" ↔ s = "y" ∨ s = "Y".
Proof.
  destruct s as [| c [| c' s']]; cbn.
  - split; [discriminate | intros [H | H]; discriminate].
  - split.
    + intros H. injection H as H.
      destruct c as [[] [] [] [] [] [] [] []]; vm_compute in H;
        try discriminate; auto.
    + intros [H | H]; injection H as ->; reflexivity.
  - split; [discriminate | intros [H | H]; discriminate].
Qed.

Lemma ToLower_n (s : string) : ToLower s = "n" ↔ s = "n" ∨ s = "N".
Proof.
  destruct s as [| c [| c' s']]; cbn.
  - split; [discriminate | intros [H | H]; discriminate].
  - split.
    + intros H. injection H as H.
      destruct c as [[] [] [] [] [] [] [] []]; vm_compute in H;
        try discriminate; auto.
    + intros [H | H]; injection H as ->; reflexivity.
  - split; [discriminate | intros [H | H]; discriminate].
Qed.

Section Theory.
Context {E : Externals}.

(** ** The listener and the key filter *)

Lemma listen_lazy (p : Prompt) (T : PromptTemplates) input pos key st :
  LazyValidation p = true ->
  let c := (Listen (cur st) input pos key).2 in
  let echo := if masked p then FormatMask c (Mask p) else Format c in
  listen p T input pos key st =
    (([], 0, (Listen (cur st) input pos key).1.2),
     mkState c (err st)
       (trace st ++ [EvSetPrompt (render (t_unvalidated T) (inl (Label p)) +:+ echo);
                     EvRefresh])).
Proof.
  intros Hlazy. unfold listen. rewrite Hlazy.
  destruct (Listen (cur st) input pos key) as [[[l z] keepOn] c].
  cbn. unfold emit. cbn. rewrite <- app_assoc. reflexivity.
Qed.

Lemma filter_nonSubmit (p : Prompt) (T : PromptTemplates) r st :
  isSubmit r = false -> filterInputRune p T r st = ((r, true), st).
Proof.
  unfold filterInputRune, isSubmit. intros ->. reflexivity.
Qed.

Lemma readLoop_lazy (p : Prompt) (T : PromptTemplates) script :
  LazyValidation p = true ->
  Forall nonSubmit script ->
  ∀ st, ∃ evs,
    trace (readLoop p T script st).2 = (trace st ++ evs)%list
    ∧ Forall (unvalidatedEvent p T) evs
    ∧ err (readLoop p T script st).2 = err st.
Proof.
  intros Hlazy Hscript. induction Hscript as [| i script Hi _ IH]; intros st.
  - exists []. cbn. rewrite app_nil_r. auto.
  - destruct i as [r line pos | e].
    + cbn in Hi. cbn [readLoop]. rewrite (filter_nonSubmit _ _ _ _ Hi).
      cbn [negb]. rewrite Hi.
      rewrite (listen_lazy p T line pos r st Hlazy).
      match goal with |- context [readLoop p T script ?s] =>
        destruct (IH s) as (evs & Htr & Hevs & Herr) end.
      eexists. rewrite Htr. cbn [trace]. rewrite <- app_assoc.
      split; [reflexivity |]. split; [| exact Herr].
      repeat constructor; [eexists; reflexivity | exact Hevs].
    + exists []. cbn. rewrite app_nil_r. auto.
Qed.

Lemma readLoop_lazy_indep (p : Prompt) (T T' : PromptTemplates) v script :
  LazyValidation p = true ->
  t_unvalidated T' = t_unvalidated T ->
  Forall nonSubmit script ->
  ∀ st, readLoop (set_Validate v p) T' script st = readLoop p T script st.
Proof.
  intros Hlazy HT Hscript. induction Hscript as [| i script Hi _ IH]; intros st.
  - reflexivity.
  - destruct i as [r line pos | e]; [| reflexivity].
    cbn in Hi. cbn [readLoop]. rewrite !(filter_nonSubmit _ _ _ _ Hi).
    cbn [negb]. rewrite Hi.
    rewrite (listen_lazy p T line pos r st Hlazy).
    rewrite (listen_lazy (set_Validate v p) T' line pos r st Hlazy).
    cbn. rewrite HT. apply IH.
Qed.

(** C3. In lazy mode the listener validates nothing and sets the prompt
    to the unvalidated template followed by the echo, whatever the key;
    over a read of keys none of which is Enter or Ctrl-J, every prompt
    set is the unvalidated template followed by an echo, and the read is
    the same under any other validator and any other valid, invalid,
    prompt, validation and success templates. *)
Theorem lazy_listener_renders_unvalidated
    (p : Prompt) (T : PromptTemplates) (script : list Input) (st : RunState) :
  LazyValidation p = true ->
  Forall nonSubmit script ->
  (∀ input pos key st0,
     let c := (Listen (cur st0) input pos key).2 in
     let echo := if masked p then FormatMask c (Mask p) else Format c in
     listen p T input pos key st0 =
       (([], 0, (Listen (cur st0) input pos key).1.2),
        mkState c (err st0)
          (trace st0
             ++ [EvSetPrompt (render (t_unvalidated T) (inl (Label p)) +:+ echo);
                 EvRefresh])))
  ∧ (∃ evs,
       trace (ReadLine p T script st).2 = (trace st ++ evs)%list
       ∧ Forall (unvalidatedEvent p T) evs)
  ∧ (∀ v T',
       t_unvalidated T' = t_unvalidated T ->
       ReadLine (set_Validate v p) T' script st = ReadLine p T script st).
Proof.
  intros Hlazy Hscript. split; [| split].
  - intros. apply listen_lazy, Hlazy.
  - unfold ReadLine. rewrite (listen_lazy p T [] 0 0 st Hlazy).
    match goal with |- context [readLoop p T script ?s] =>
      destruct (readLoop_lazy p T script Hlazy Hscript s) as (evs & Htr & Hevs & _)
    end.
    eexists. rewrite Htr. cbn [trace]. rewrite <- app_assoc.
    split; [reflexivity |].
    repeat constructor; [eexists; reflexivity | exact Hevs].
  - intros v T' HT. unfold ReadLine.
    rewrite (listen_lazy p T [] 0 0 st Hlazy).
    rewrite (listen_lazy (set_Validate v p) T' [] 0 0 st Hlazy).
    cbn. rewrite HT. apply readLoop_lazy_indep; assumption.
Qed.

(** The key filter on Enter and Ctrl-J. *)
Lemma filter_submit (p : Prompt) (T : PromptTemplates) r st :
  isSubmit r = true ->
  let x := Get (cur st) in
  filterInputRune p T r st =
    match validFn p x with
    | Some e =>
        ((r, false),
         mkState (cur st) (Some e)
           (trace st
              ++ [EvValidate x; EvSetPrompt (render (t_validation T) (inr e))]))
    | None => ((r, true), mkState (cur st) None (trace st ++ [EvValidate x]))
    end.
Proof.
  intros Hsub x. unfold filterInputRune. fold (isSubmit r). rewrite Hsub.
  unfold call_validFn. fold x. destruct (validFn p x); cbn;
    unfold emit; cbn; rewrite <- ?app_assoc; reflexivity.
Qed.

Lemma listen_trace (p : Prompt) (T : PromptTemplates) input pos key st :
  ∃ evs, trace (listen p T input pos key st).2 = (trace st ++ evs)%list
         ∧ Forall loopEvent evs.
Proof.
  destruct (LazyValidation p) eqn:Hl.
  - rewrite (listen_lazy p T input pos key st Hl). cbn.
    eexists. split; [reflexivity | repeat constructor].
  - unfold listen. rewrite Hl.
    destruct (Listen (cur st) input pos key) as [[[l z] keepOn] c].
    cbn. destruct (validFn p (Get c)); cbn; rewrite <- !app_assoc;
      (eexists; split; [reflexivity | repeat constructor]).
Qed.

Lemma filter_trace (p : Prompt) (T : PromptTemplates) r st :
  ∃ evs, trace (filterInputRune p T r st).2 = (trace st ++ evs)%list
         ∧ Forall loopEvent evs.
Proof.
  destruct (isSubmit r) eqn:Hs.
  - rewrite (filter_submit p T r st Hs). cbn zeta.
    destruct (validFn p (Get (cur st))); cbn;
      (eexists; split; [reflexivity | repeat constructor]).
  - rewrite (filter_nonSubmit p T r st Hs). exists []. cbn.
    rewrite app_nil_r. auto.
Qed.

Lemma readLoop_trace (p : Prompt) (T : PromptTemplates) script :
  ∀ st, ∃ evs, trace (readLoop p T script st).2 = (trace st ++ evs)%list
               ∧ Forall loopEvent evs.
Proof.
  induction script as [| i script IH]; intros st.
  - exists []. cbn. rewrite app_nil_r. auto.
  - destruct i as [r line pos | e]; cbn [readLoop].
    + destruct (filter_trace p T r st) as (ev1 & H1 & F1).
      destruct (filterInputRune p T r st) as [[r' process] st1]. cbn in H1.
      destruct process; cbn [negb].
      * destruct (isSubmit r').
        { exists ev1. cbn. auto. }
        destruct (listen_trace p T line pos r' st1) as (ev2 & H2 & F2).
        destruct (listen p T line pos r' st1) as [out st2]. cbn in H2.
        destruct (IH st2) as (ev3 & H3 & F3).
        exists (ev1 ++ ev2 ++ ev3)%list. rewrite H3, H2, H1, <- !app_assoc.
        split; [reflexivity | rewrite !Forall_app; auto].
      * destruct (IH st1) as (ev3 & H3 & F3).
        exists (ev1 ++ ev3)%list. rewrite H3, H1, <- !app_assoc.
        split; [reflexivity | apply Forall_app; auto].
    + exists []. cbn. rewrite app_nil_r. auto.
Qed.

Lemma ReadLine_trace (p : Prompt) (T : PromptTemplates) script st :
  ∃ evs, trace (ReadLine p T script st).2 = (trace st ++ evs)%list
         ∧ Forall loopEvent evs.
Proof.
  unfold ReadLine.
  destruct (listen_trace p T [] 0 0 st) as (ev1 & H1 & F1).
  destruct (listen p T [] 0 0 st) as [out st1]. cbn in H1.
  destruct (readLoop_trace p T script st1) as (ev2 & H2 & F2).
  exists (ev1 ++ ev2)%list. rewrite H2, H1, <- app_assoc.
  split; [reflexivity | apply Forall_app; auto].
Qed.

(** C4. In eager mode the listener calls validFn once, on the cursor's
    value after the key, and the verdict is that of the validator the
    prompt is configured with, nil when it has none.  It sets the prompt
    to the invalid template when the verdict is an error, to the valid
    template when it is not, and to the prompt (confirm) template
    instead of the valid one in confirm mode; the echo follows. *)
Theorem eager_listener_selects_template
    (p : Prompt) (T : PromptTemplates)
    (input : list rune) (pos : Z) (key : rune) (st : RunState) :
  LazyValidation p = false ->
  let c := (Listen (cur st) input pos key).2 in
  let verdict :=
    match Validate p with
    | Some validate => validate (Get c)
    | None => None
    end in
  let tpl :=
    match verdict with
    | Some _ => t_invalid T
    | None => if IsConfirm p then t_prompt T else t_valid T
    end in
  let echo := if masked p then FormatMask c (Mask p) else Format c in
  listen p T input pos key st =
    (([], 0, (Listen (cur st) input pos key).1.2),
     mkState c (err st)
       (trace st
          ++ [EvValidate (Get c);
              EvSetPrompt (render tpl (inl (Label p)) +:+ echo);
              EvRefresh])).
Proof.
  intros Heager. unfold listen, call_validFn, validFn. rewrite Heager.
  destruct (Listen (cur st) input pos key) as [[[l z] keepOn] c].
  cbn. destruct (Validate p) as [validate |];
    [destruct (validate (Get c)) |]; try destruct (IsConfirm p);
    cbn; unfold emit; cbn; rewrite <- !app_assoc; reflexivity.
Qed.

(** C1. On Enter or Ctrl-J the key filter calls the validator once, on
    the cursor's value, whatever the lazy-validation flag.  When the
    validator returns an error the filter rejects the key, sets the
    prompt to the validation template rendered on that error, and the
    read goes on with the next key; when it returns none the filter
    accepts the key and the read returns with a nil error. *)
Theorem enter_validates_and_gates
    (p : Prompt) (T : PromptTemplates) (r : rune)
    (line : list rune) (pos : Z) (rest : list Input) (st : RunState) :
  r = CharEnter ∨ r = CharCtrlJ ->
  let x := Get (cur st) in
  (∀ b, filterInputRune (set_LazyValidation b p) T r st
        = filterInputRune p T r st)
  ∧ match validFn p x with
    | Some e =>
        let st' :=
          mkState (cur st) (Some e)
            (trace st
               ++ [EvValidate x; EvSetPrompt (render (t_validation T) (inr e))]) in
        filterInputRune p T r st = ((r, false), st')
        ∧ readLoop p T (InKey r line pos :: rest) st = readLoop p T rest st'
    | None =>
        let st' := mkState (cur st) None (trace st ++ [EvValidate x]) in
        filterInputRune p T r st = ((r, true), st')
        ∧ readLoop p T (InKey r line pos :: rest) st = ((line, None), st')
    end.
Proof.
  intros Hr x. split; [reflexivity |].
  assert (Hsub : isSubmit r = true) by (destruct Hr; subst r; reflexivity).
  pose proof (filter_submit p T r st Hsub) as Hf. cbn zeta in Hf. fold x in Hf.
  cbn [readLoop]. rewrite Hf.
  destruct (validFn p x); cbn zeta; split; try reflexivity.
  cbn [negb]. rewrite Hsub. reflexivity.
Qed.

(** ** prepareTemplates *)

Lemma keeps_refl t : keeps t t.
Proof. unfold keeps. repeat split; apply Forall_forall; auto. Qed.

Lemma keeps_trans t1 t2 t3 : keeps t1 t2 -> keeps t2 t3 -> keeps t1 t3.
Proof.
  intros (Ha & Hb & Hc) (Ha' & Hb' & Hc'). unfold keeps. repeat split.
  - rewrite Forall_forall in *. intros g Hg Hne.
    rewrite <- (Ha g Hg Hne). apply Ha'; [exact Hg |].
    rewrite (Ha g Hg Hne). exact Hne.
  - intros Hne. rewrite <- (Hb Hne). apply Hb'. rewrite (Hb Hne). exact Hne.
  - rewrite Forall_forall in *. intros g Hg Hne. apply Hc', Hc; assumption.
Qed.

Lemma extends_refl l s : extends l s s.
Proof.
  split; [auto |]. split; [apply keeps_refl |].
  exists []. rewrite app_nil_r. auto.
Qed.

Lemma extends_trans l s1 s2 s3 :
  extends l s1 s2 -> extends l s2 s3 -> extends l s1 s3.
Proof.
  intros (Hf & Hk & evs & Ht & He) (Hf' & Hk' & evs' & Ht' & He').
  split; [| split].
  - intros l' Hl'. rewrite Hf', Hf; auto.
  - eapply keeps_trans; eassumption.
  - exists (evs ++ evs')%list. rewrite Ht', Ht, app_assoc.
    split; [reflexivity | apply Forall_app; auto].
Qed.

Lemma extends_assign l s upd :
  keeps (s.1 !!! l) (upd (s.1 !!! l)) ->
  extends l s (<[l := upd (s.1 !!! l)]> s.1, s.2).
Proof.
  intros Hk. split; [| split]; cbn.
  - intros l' Hl'. apply lookup_insert_ne. congruence.
  - rewrite lookup_total_insert_eq. exact Hk.
  - exists []. rewrite app_nil_r. auto.
Qed.

Lemma extends_parse l s fm src :
  extends l s (s.1, (s.2 ++ [EvParse fm src])%list).
Proof.
  split; [auto |]. split; [apply keeps_refl |].
  eexists. split; [reflexivity |]. repeat constructor.
Qed.

Lemma sound_ret l {A} (a : A) : sound l (ret a).
Proof. intros s. apply extends_refl. Qed.

Lemma sound_bind l {A B} (m : Prep A) (k : A -> Prep B) :
  sound l m -> (∀ a, sound l (k a)) -> sound l (bind m k).
Proof.
  intros Hm Hk s. unfold bind. specialize (Hm s).
  destruct (m s) as [[e | a] s1]; [exact Hm |].
  eapply extends_trans; [exact Hm | apply Hk].
Qed.

Lemma bind_ok {A B} (m : Prep A) (k : A -> Prep B) s b s' :
  bind m k s = (inr b, s') ->
  ∃ a s1, m s = (inr a, s1) ∧ k a s1 = (inr b, s').
Proof.
  unfold bind. destruct (m s) as [[e | a] s1]; [discriminate |]. eauto.
Qed.

Section Compile.
Variable l : loc.
Variable src : PromptTemplates -> string.
Variable set_src : string -> PromptTemplates -> PromptTemplates.
Variable dflt : string.
Variable set_tpl : option Template -> PromptTemplates -> PromptTemplates.
Variable get_tpl : PromptTemplates -> option Template.
Hypothesis set_src_keeps : ∀ v t, src t = "" -> keeps t (set_src v t).
Hypothesis set_tpl_keeps : ∀ v t, keeps t (set_tpl (Some v) t).
Hypothesis get_set_tpl : ∀ v t, get_tpl (set_tpl v t) = v.

Lemma compile_eq s :
  compile l src set_src dflt set_tpl s =
    let s1 := filledAt l src set_src dflt s in
    let t := s1.1 !!! l in
    let tr := (s1.2 ++ [EvParse (T_FuncMap t) (src t)])%list in
    match Parse (T_FuncMap t) (src t) with
    | inl e => (inl e, (s1.1, tr))
    | inr tpl => (inr tt, (<[l := set_tpl (Some tpl) t]> s1.1, tr))
    end.
Proof.
  unfold compile, bind, load, when, assign, parse, ret, filledAt. cbn.
  destruct (String.eqb (src (s.1 !!! l)) ""); cbn;
    match goal with |- context [Parse ?a ?b] => destruct (Parse a b) end;
    reflexivity.
Qed.

Lemma extends_filled s : extends l s (filledAt l src set_src dflt s).
Proof.
  unfold filledAt. destruct (String.eqb_spec (src (s.1 !!! l)) "") as [He | _].
  - apply extends_assign, set_src_keeps, He.
  - apply extends_refl.
Qed.

Lemma sound_compile : sound l (compile l src set_src dflt set_tpl).
Proof.
  intros s. rewrite compile_eq. cbn zeta.
  eapply extends_trans; [apply extends_filled |].
  destruct (Parse _ _) as [e | tpl]; cbn [snd].
  - apply extends_parse.
  - eapply extends_trans; [apply extends_parse |].
    apply (extends_assign l (_, _)). apply set_tpl_keeps.
Qed.

Lemma compile_ok s s' :
  compile l src set_src dflt set_tpl s = (inr tt, s') ->
  (∃ fm sr, s'.2 = (s.2 ++ [EvParse fm sr])%list)
  ∧ get_tpl (s'.1 !!! l) ≠ None.
Proof.
  rewrite compile_eq. cbn zeta.
  assert (Htr : (filledAt l src set_src dflt s).2 = s.2)
    by (unfold filledAt; destruct (String.eqb _ _); reflexivity).
  destruct (Parse _ _) as [e | tpl]; [discriminate |].
  intros [= <-]. cbn. rewrite Htr. split; [eauto |].
  rewrite lookup_total_insert_eq, get_set_tpl. discriminate.
Qed.

End Compile.

Lemma prepareFrom_eq p l s :
  prepareFrom p l s = compileAll p l (withFuncMap l s).
Proof.
  unfold prepareFrom, withFuncMap. unfold bind at 1. unfold load at 1.
  unfold bind at 1. fold (compileRest p l). fold (compileAll p l).
  destruct (T_FuncMap (s.1 !!! l)); reflexivity.
Qed.

Lemma extends_withFuncMap l s : extends l s (withFuncMap l s).
Proof.
  unfold withFuncMap.
  destruct (T_FuncMap (s.1 !!! l)) eqn:Hfm; [apply extends_refl |].
  apply extends_assign. revert Hfm. generalize (s.1 !!! l). keeps_tac.
Qed.

Lemma sound_compileRest p l : sound l (compileRest p l).
Proof.
  unfold compileRest.
  repeat (apply sound_bind; [| intros _]); try apply sound_ret;
    apply sound_compile; keeps_tac.
Qed.

Lemma sound_compileAll p l : sound l (compileAll p l).
Proof.
  unfold compileAll, compileRest.
  repeat (apply sound_bind; [| intros _]); try apply sound_ret;
    try destruct (IsConfirm p); apply sound_compile; keeps_tac.
Qed.

Lemma sound_prepareFrom p l : sound l (prepareFrom p l).
Proof.
  intros s. rewrite prepareFrom_eq.
  eapply extends_trans; [apply extends_withFuncMap | apply sound_compileAll].
Qed.

Lemma bind_fail {A B} (m : Prep A) (k : A -> Prep B) s e s' :
  bind m k s = (inl e, s') ->
  m s = (inl e, s') ∨ ∃ a s1, m s = (inr a, s1) ∧ k a s1 = (inl e, s').
Proof.
  unfold bind. destruct (m s) as [[e0 | a] s1]; intros H.
  - left. injection H as -> ->. reflexivity.
  - right. exists a, s1. split; [reflexivity | exact H].
Qed.

Lemma compile_fail l src set_src dflt set_tpl s e s' :
  compile l src set_src dflt set_tpl s = (inl e, s') -> failedParse e s'.2.
Proof.
  rewrite compile_eq. cbn zeta.
  destruct (Parse _ _) as [e0 | tpl] eqn:HP; [| discriminate].
  intros [= <- <-]. cbn. do 3 eexists. split; [reflexivity | exact HP].
Qed.

Lemma compile_step l src set_src dflt set_tpl get_tpl s s' :
  (∀ v t, src t = "" -> keeps t (set_src v t)) ->
  (∀ v t, keeps t (set_tpl (Some v) t)) ->
  (∀ v t, get_tpl (set_tpl v t) = v) ->
  compile l src set_src dflt set_tpl s = (inr tt, s') ->
  extends l s s'
  ∧ (∃ fm sr, s'.2 = (s.2 ++ [EvParse fm sr])%list)
  ∧ get_tpl (s'.1 !!! l) ≠ None.
Proof.
  intros H1 H2 H3 Hc. split.
  - pose proof (sound_compile l src set_src dflt set_tpl H1 H2 s) as Hs.
    rewrite Hc in Hs. exact Hs.
  - eapply compile_ok; eassumption.
Qed.

Lemma extends_compiled l s s' tpl :
  extends l s s' -> tpl ∈ compiled ->
  tpl (s.1 !!! l) ≠ None -> tpl (s'.1 !!! l) ≠ None.
Proof.
  intros (_ & (_ & _ & Hc) & _) Hin. rewrite Forall_forall in Hc.
  apply Hc, Hin.
Qed.

Lemma compileAll_fail p l s e s' :
  compileAll p l s = (inl e, s') -> failedParse e s'.2.
Proof.
  unfold compileAll, compileRest. intros H.
  repeat (apply bind_fail in H as [H | (? & ? & _ & H)];
          [try destruct (IsConfirm p); eapply compile_fail; exact H |]).
  discriminate.
Qed.

Lemma compileAll_ok p l s p' s' :
  compileAll p l s = (inr p', s') ->
  p' = set_Templates (Some l) p
  ∧ (∃ evs, s'.2 = (s.2 ++ evs)%list ∧ length evs = 6%nat ∧ Forall isParse evs)
  ∧ Forall (fun tpl => tpl (s'.1 !!! l) ≠ None) compiled.
Proof.
  unfold compileAll, compileRest. intros H.
  apply bind_ok in H as ([] & s1 & H1 & H).
  apply bind_ok in H as ([] & s2 & H2 & H).
  apply bind_ok in H as ([] & s3 & H3 & H).
  apply bind_ok in H as ([] & s4 & H4 & H).
  apply bind_ok in H as ([] & s5 & H5 & H).
  apply bind_ok in H as ([] & s6 & H6 & H).
  injection H as <- <-.
  assert (H1' : extends l s s1
                ∧ (∃ fm sr, s1.2 = (s.2 ++ [EvParse fm sr])%list)
                ∧ t_prompt (s1.1 !!! l) ≠ None).
  { destruct (IsConfirm p);
      (eapply compile_step; [| | | exact H1]; [keeps_tac | keeps_tac | reflexivity]). }
  eapply (compile_step _ _ _ _ _ t_valid) in H2;
    [| keeps_tac | keeps_tac | reflexivity].
  eapply (compile_step _ _ _ _ _ t_unvalidated) in H3;
    [| keeps_tac | keeps_tac | reflexivity].
  eapply (compile_step _ _ _ _ _ t_invalid) in H4;
    [| keeps_tac | keeps_tac | reflexivity].
  eapply (compile_step _ _ _ _ _ t_validation) in H5;
    [| keeps_tac | keeps_tac | reflexivity].
  eapply (compile_step _ _ _ _ _ t_success) in H6;
    [| keeps_tac | keeps_tac | reflexivity].
  destruct H1' as (E1 & (? & ? & T1) & C1), H2 as (E2 & (? & ? & T2) & C2),
    H3 as (E3 & (? & ? & T3) & C3), H4 as (E4 & (? & ? & T4) & C4),
    H5 as (E5 & (? & ? & T5) & C5), H6 as (E6 & (? & ? & T6) & C6).
  split; [reflexivity |]. split.
  - eexists. rewrite T6, T5, T4, T3, T2, T1, <- !app_assoc. cbn.
    split; [reflexivity |]. split; [reflexivity | repeat constructor].
  - pose proof (extends_trans _ _ _ _ E5 E6) as E56.
    pose proof (extends_trans _ _ _ _ E4 E56) as E46.
    pose proof (extends_trans _ _ _ _ E3 E46) as E36.
    pose proof (extends_trans _ _ _ _ E2 E36) as E26.
    unfold compiled. repeat constructor.
    + eapply (extends_compiled _ _ _ t_prompt E26); [in_list | exact C1].
    + eapply (extends_compiled _ _ _ t_valid E36); [in_list | exact C2].
    + eapply (extends_compiled _ _ _ t_invalid E56); [in_list | exact C4].
    + eapply (extends_compiled _ _ _ t_validation E6); [in_list | exact C5].
    + exact C6.
    + eapply (extends_compiled _ _ _ t_unvalidated E46); [in_list | exact C3].
Qed.

Lemma prepareTemplates_eq p s :
  prepareTemplates p s
  = compileAll p (tplsOf p s.1) (withFuncMap (tplsOf p s.1) (allocated p s)).
Proof.
  rewrite <- prepareFrom_eq.
  unfold prepareTemplates, tplsOf, allocated, bind.
  destruct (Templates p); reflexivity.
Qed.

Lemma prepared_trace p l s : (withFuncMap l (allocated p s)).2 = s.2.
Proof.
  unfold withFuncMap, allocated.
  destruct (T_FuncMap _); destruct (Templates p); reflexivity.
Qed.

Lemma prepareTemplates_parses p s :
  ∃ evs, (prepareTemplates p s).2.2 = (s.2 ++ evs)%list ∧ Forall isParse evs.
Proof.
  rewrite prepareTemplates_eq.
  destruct (sound_compileAll p (tplsOf p s.1)
              (withFuncMap (tplsOf p s.1) (allocated p s)))
    as (_ & _ & evs & Htr & Hevs).
  exists evs. rewrite Htr, prepared_trace. auto.
Qed.

Lemma prepareTemplates_fail p s e s' :
  prepareTemplates p s = (inl e, s') -> failedParse e s'.2.
Proof. rewrite prepareTemplates_eq. apply compileAll_fail. Qed.

Lemma prepareTemplates_ok p s p' s' :
  prepareTemplates p s = (inr p', s') ->
  p' = set_Templates (Some (tplsOf p s.1)) p
  ∧ (∃ evs, s'.2 = (s.2 ++ evs)%list ∧ length evs = 6%nat ∧ Forall isParse evs)
  ∧ Forall (fun tpl => tpl (s'.1 !!! tplsOf p s.1) ≠ None) compiled.
Proof.
  rewrite prepareTemplates_eq. intros H.
  apply compileAll_ok in H. rewrite prepared_trace in H. exact H.
Qed.

(** ** Run *)

Lemma finishRun_error p h T line e st :
  finishRun p h T (line, Some e) st
  = mkResult "" (Some (engineError e)) p h (trace st) false.
Proof. reflexivity. Qed.

Lemma finishRun_ok p h T line st :
  finishRun p h T (line, None) st
  = mkResult (Get (cur st))
      (if IsConfirm p && confirmAborts (ToLower (Default p)) (ToLower (Get (cur st)))
       then Some ErrAbort else None)
      p h
      (trace st ++ [EvWrite (finalLine p T (cur st)); EvWrite newline;
                    EvWrite showCursor; EvClose])
      false.
Proof.
  unfold finishRun, finalLine. cbn.
  destruct (IsConfirm p); cbn;
    [destruct (confirmAborts _ _) |]; cbn;
    unfold emit; cbn; rewrite <- !app_assoc; reflexivity.
Qed.

(** What startRun hands to the read. *)
Lemma startRun_inr p h w p1 h1 T st :
  startRun p h w = inr (p1, h1, T, st) ->
  ∃ tr, prepareTemplates p (h, []) = (inr p1, (h1, tr))
        ∧ new_err w = None
        ∧ deref h1 (Templates p1) = Some T
        ∧ st = mkState (initialCursor p1) None
                 (tr ++ [EvNewEngine (config p1); EvWrite hideCursor]).
Proof.
  unfold startRun.
  destruct (prepareTemplates p (h, [])) as [[e | p'] [h' tr]]; [discriminate |].
  destruct (new_err w); [discriminate |].
  destruct (deref h' (Templates p')) eqn:Hd; [| discriminate].
  intros [= <- <- <- <-]. exists tr. rewrite <- app_assoc. auto.
Qed.

Lemma Run_read p h w p1 h1 T st :
  startRun p h w = inr (p1, h1, T, st) ->
  Run p h w = finishRun p1 h1 T (ReadLine p1 T (keys w) st).1
                (ReadLine p1 T (keys w) st).2.
Proof.
  intros H. unfold Run. rewrite H.
  destruct (ReadLine p1 T (keys w) st). reflexivity.
Qed.

Lemma loopEvent_not_parse ev : loopEvent ev -> ¬ isParse ev.
Proof. destruct ev; cbn; tauto. Qed.

(** C7. prepareTemplates runs first.  When a template fails to parse,
    Run returns the empty string and the error of that parse, and its
    trace holds parse calls only, the failed one last: no engine was
    built and nothing was written.  Otherwise the trace starts with six
    parse calls, the six compiled templates are set, then the engine is
    built, and no parse call follows. *)
Theorem templates_compiled_before_engine (p : Prompt) (h : Heap) (w : World) :
  match prepareTemplates p (h, []) with
  | (inl e, (h', tr)) =>
      Run p h w = mkResult "" (Some e) p h' tr false
      ∧ Forall isParse tr
      ∧ failedParse e tr
  | (inr p', (h', tr)) =>
      length tr = 6%nat
      ∧ Forall isParse tr
      ∧ (∃ T, deref h' (Templates p') = Some T
              ∧ Forall (fun tpl => tpl T ≠ None) compiled)
      ∧ ∃ rest, rr_trace (Run p h w) = (tr ++ EvNewEngine (config p') :: rest)%list
                ∧ Forall (fun ev => ¬ isParse ev) rest
  end.
Proof.
  destruct (prepareTemplates p (h, [])) as [[e | p'] [h' tr]] eqn:Hprep.
  - split; [| split].
    + unfold Run, startRun. rewrite Hprep. reflexivity.
    + destruct (prepareTemplates_parses p (h, [])) as (evs & Htr & Hevs).
      rewrite Hprep in Htr. cbn in Htr. subst tr. exact Hevs.
    + apply (prepareTemplates_fail _ _ _ _ Hprep).
  - destruct (prepareTemplates_ok _ _ _ _ Hprep) as (Hp' & (evs & Htr & Hlen & Hevs) & Hc).
    cbn in Htr, Hc. subst tr.
    assert (Hd : deref h' (Templates p') = Some (h' !!! tplsOf p h))
      by (rewrite Hp'; reflexivity).
    split; [exact Hlen |]. split; [exact Hevs |]. split; [eauto |].
    destruct (new_err w) as [e |] eqn:Hnew.
    + exists []. split; [| constructor].
      unfold Run, startRun. rewrite Hprep, Hnew. reflexivity.
    + assert (Hs : startRun p h w
                   = inr (p', h', h' !!! tplsOf p h,
                          mkState (initialCursor p') None
                            ((evs ++ [EvNewEngine (config p')])
                               ++ [EvWrite hideCursor]))).
      { unfold startRun. rewrite Hprep, Hnew, Hd. reflexivity. }
      rewrite (Run_read _ _ _ _ _ _ _ Hs).
      match goal with |- context [ReadLine ?a ?b ?c ?d] =>
        destruct (ReadLine_trace a b c d) as (ev1 & H1 & F1);
        destruct (ReadLine a b c d) as [[line [e |]] st1]
      end; cbn [fst snd] in *; cbn [trace] in H1.
      * rewrite finishRun_error. cbn [rr_trace]. rewrite H1, <- !app_assoc.
        eexists. split; [reflexivity |].
        constructor; [cbn; tauto |].
        eapply Forall_impl; [exact F1 | apply loopEvent_not_parse].
      * rewrite finishRun_ok. cbn [rr_trace]. rewrite H1, <- !app_assoc.
        eexists. split; [reflexivity |].
        constructor; [cbn; tauto |]. rewrite Forall_app. split.
        -- eapply Forall_impl; [exact F1 | apply loopEvent_not_parse].
        -- repeat constructor; cbn; tauto.
Qed.

Lemma readReturn_inv p h w rd st :
  readReturn p h w = Some (rd, st) ->
  ∃ p1 h1 T st0,
    startRun p h w = inr (p1, h1, T, st0)
    ∧ ReadLine p1 T (keys w) st0 = (rd, st)
    ∧ Run p h w = finishRun p1 h1 T rd st.
Proof.
  unfold readReturn.
  destruct (startRun p h w) as [r | [[[p1 h1] T] st0]] eqn:Hs; [discriminate |].
  intros [= HR]. exists p1, h1, T, st0. split; [reflexivity |].
  split; [exact HR |].
  rewrite (Run_read _ _ _ _ _ _ _ Hs), HR. reflexivity.
Qed.

(** The prompt Run works with after prepareTemplates differs from the
    caller's in its Templates field only. *)
Lemma startRun_prompt p h w p1 h1 T st :
  startRun p h w = inr (p1, h1, T, st) ->
  p1 = set_Templates (Some (tplsOf p h)) p
  ∧ T = h1 !!! tplsOf p h
  ∧ ∃ tr, Forall isParse tr
          ∧ st = mkState (initialCursor p1) None
                   (tr ++ [EvNewEngine (config p1); EvWrite hideCursor]).
Proof.
  intros H. apply startRun_inr in H as (tr & Hprep & _ & Hd & Hst).
  destruct (prepareTemplates_ok _ _ _ _ Hprep) as (Hp1 & (evs & Htr & _ & Hevs) & _).
  cbn in Htr, Hp1. subst tr. split; [exact Hp1 |].
  rewrite Hp1 in Hd. cbn in Hd. injection Hd as <-.
  split; [reflexivity |]. exists evs. split; [exact Hevs | exact Hst].
Qed.

(** C6. When the blocking read returns an error, Run returns the empty
    string, whatever the cursor holds, with that error mapped:
    readline.ErrInterrupt to ErrInterrupt, and io.EOF to ErrEOF (ErrEOF
    being a sentinel whose message is not the text Interrupt, which the
    code maps to ErrInterrupt as well). *)
Theorem engine_error_returns_empty
    (p : Prompt) (h : Heap) (w : World)
    (line : list rune) (e : error) (st : RunState) :
  readReturn p h w = Some ((line, Some e), st) ->
  rr_value (Run p h w) = ""
  ∧ rr_err (Run p h w) = Some (engineError e)
  ∧ (e = readline_ErrInterrupt -> rr_err (Run p h w) = Some ErrInterrupt)
  ∧ (e = io_EOF -> ErrEOF_msg ≠ "Interrupt" ->
     rr_err (Run p h w) = Some ErrEOF).
Proof.
  intros H. apply readReturn_inv in H as (p1 & h1 & T & st0 & _ & _ & ->).
  rewrite finishRun_error. cbn [rr_value rr_err].
  split; [reflexivity |]. split; [reflexivity |]. split.
  - intros ->. unfold engineError. destruct (String.eqb _ _); reflexivity.
  - intros -> Hmsg. unfold engineError. cbn [Error].
    destruct (String.eqb_spec ErrEOF_msg "Interrupt"); [contradiction | reflexivity].
Qed.

Lemma not_close_parse ev : isParse ev -> ev ≠ EvClose.
Proof. destruct ev; cbn; intros; congruence. Qed.

Lemma not_close_loop ev : loopEvent ev -> ev ≠ EvClose.
Proof. destruct ev; cbn; intros; congruence. Qed.

(** Before the read returns nothing closes the engine. *)
Lemma readReturn_open p h w rd st :
  readReturn p h w = Some (rd, st) ->
  Forall (fun ev => ev ≠ EvClose) (trace st)
  ∧ ∃ c, EvNewEngine c ∈ trace st.
Proof.
  intros H. apply readReturn_inv in H as (p1 & h1 & T & st0 & Hs & HR & _).
  apply startRun_prompt in Hs as (_ & _ & tr & Htr & ->).
  destruct (ReadLine_trace p1 T (keys w)
              (mkState (initialCursor p1) None
                 (tr ++ [EvNewEngine (config p1); EvWrite hideCursor])))
    as (evs & Hevs & Floop).
  rewrite HR in Hevs. cbn in Hevs. rewrite Hevs. split.
  - rewrite !Forall_app. split; [split |].
    + eapply Forall_impl; [exact Htr | apply not_close_parse].
    + repeat constructor; congruence.
    + eapply Forall_impl; [exact Floop | apply not_close_loop].
  - exists (config p1). rewrite !elem_of_app. left. right. in_list.
Qed.

(** C8. On the error path of the read the engine is not closed: when
    the blocking read returns an error, Run returns with the engine
    built and no Close in its trace; when the read returns no error,
    Close is the last call of the run. *)
Theorem engine_not_closed_on_read_error
    (p : Prompt) (h : Heap) (w : World)
    (line : list rune) (re : option error) (st : RunState) :
  readReturn p h w = Some ((line, re), st) ->
  (∃ c, EvNewEngine c ∈ rr_trace (Run p h w))
  ∧ match re with
    | Some e => rr_err (Run p h w) = Some (engineError e)
                ∧ EvClose ∉ rr_trace (Run p h w)
    | None => ∃ tr, rr_trace (Run p h w) = (tr ++ [EvClose])%list
    end.
Proof.
  intros H. destruct (readReturn_open _ _ _ _ _ H) as (Hopen & c & Hc).
  apply readReturn_inv in H as (p1 & h1 & T & st0 & _ & _ & ->).
  destruct re as [e |].
  - rewrite finishRun_error. cbn [rr_trace rr_err].
    split; [eauto |]. split; [reflexivity |].
    intros Hin. rewrite Forall_forall in Hopen. exact (Hopen _ Hin eq_refl).
  - rewrite finishRun_ok. cbn [rr_trace]. split.
    + exists c. rewrite elem_of_app. left. exact Hc.
    + eexists (trace st ++ [_; _; _])%list. rewrite <- app_assoc. reflexivity.
Qed.

Lemma confirmAborts_spec D A : confirmAborts D A = false ↔ accepts D A.
Proof.
  unfold confirmAborts, accepts.
  destruct (String.eqb_spec D "y"), (String.eqb_spec A "n"),
    (String.eqb_spec A "y"); cbn; split; intros H;
    try discriminate; try reflexivity; try tauto;
    try (subst; destruct H as [[? ?] | [? ?]]; congruence).
Qed.

(** C2. A confirm-mode run whose read completed accepts, that is
    returns no ErrAbort, exactly when the lower-cased default is y and
    the lower-cased answer is not n, or the lower-cased default is not y
    and the lower-cased answer is y.  An accepted run returns a nil
    error and writes the success template with the echo; any other run,
    the empty answer under a default other than y among them, returns
    ErrAbort and writes the invalid template instead. *)
Theorem confirm_acceptance_rule
    (p : Prompt) (h : Heap) (w : World) (line : list rune) (st : RunState) :
  IsConfirm p = true ->
  readReturn p h w = Some ((line, None), st) ->
  let D := ToLower (Default p) in
  let A := ToLower (Get (cur st)) in
  let r := Run p h w in
  ∃ T, deref (rr_heap r) (Templates (rr_prompt r)) = Some T
  ∧ rr_value r = Get (cur st)
  ∧ (accepts D A ↔ rr_err r ≠ Some ErrAbort)
  ∧ (accepts D A ->
     rr_err r = None
     ∧ rr_trace r =
         (trace st
            ++ [EvWrite (render (t_success T) (inl (Label p))
                           +:+ (if masked p then GetMask (cur st) (Mask p)
                                else Get (cur st)));
                EvWrite newline; EvWrite showCursor; EvClose])%list)
  ∧ (¬ accepts D A ->
     rr_err r = Some ErrAbort
     ∧ rr_trace r =
         (trace st
            ++ [EvWrite (render (t_invalid T) (inl (Label p)));
                EvWrite newline; EvWrite showCursor; EvClose])%list)
  ∧ (Get (cur st) = "" -> D ≠ "y" -> rr_err r = Some ErrAbort).
Proof.
  intros Hc H D A r.
  apply readReturn_inv in H as (p1 & h1 & T & st0 & Hs & _ & HR).
  apply startRun_prompt in Hs as (Hp1 & HT & _).
  subst r. rewrite HR, finishRun_ok.
  cbn [rr_err rr_trace rr_heap rr_prompt rr_value].
  unfold finalLine. rewrite Hp1. cbn [IsConfirm Default Label set_Templates
    masked Mask Templates deref]. rewrite Hc. cbn [andb]. fold D A.
  exists T. split; [rewrite HT; reflexivity |]. split; [reflexivity |].
  pose proof (confirmAborts_spec D A) as Hspec.
  destruct (confirmAborts D A).
  - assert (Hno : ¬ accepts D A) by (intros Ha; apply Hspec in Ha; discriminate).
    split; [split; [contradiction | congruence] |].
    split; [contradiction |]. split; [auto |]. auto.
  - assert (Hyes : accepts D A) by (apply Hspec; reflexivity).
    split; [split; [discriminate | auto] |].
    split; [auto |]. split; [contradiction |].
    intros Hempty HD. exfalso. subst A. rewrite Hempty in Hyes.
    destruct Hyes as [[? _] | [_ ?]]; [contradiction | discriminate].
Qed.

(** C5, as the code has it.  A confirm-mode run that resolves to abort
    returns ErrAbort together with the value of the cursor, which is the
    answer as typed: the empty string only when the answer is empty. *)
Theorem confirm_abort_returns_answer
    (p : Prompt) (h : Heap) (w : World) (line : list rune) (st : RunState) :
  IsConfirm p = true ->
  readReturn p h w = Some ((line, None), st) ->
  confirmAborts (ToLower (Default p)) (ToLower (Get (cur st))) = true ->
  rr_err (Run p h w) = Some ErrAbort
  ∧ rr_value (Run p h w) = Get (cur st).
Proof.
  intros Hc H Ha.
  apply readReturn_inv in H as (p1 & h1 & T & st0 & Hs & _ & ->).
  apply startRun_prompt in Hs as (Hp1 & _ & _).
  rewrite finishRun_ok. cbn [rr_err rr_value]. rewrite Hp1.
  cbn [IsConfirm Default set_Templates]. rewrite Hc, Ha. auto.
Qed.

(** ** The prompt and the store after a run *)

Lemma Run_leaves p h w :
  rr_heap (Run p h w) = (prepareTemplates p (h, [])).2.1
  ∧ rr_prompt (Run p h w)
    = match (prepareTemplates p (h, [])).1 with
      | inl _ => p
      | inr p' => p'
      end
  ∧ rr_panic (Run p h w) = false.
Proof.
  destruct (startRun p h w) as [r | [[[p1 h1] T] st0]] eqn:Hs.
  - unfold Run. rewrite Hs. unfold startRun in Hs.
    destruct (prepareTemplates p (h, [])) as [[e | p'] [h' tr]] eqn:Hprep.
    + injection Hs as <-. auto.
    + destruct (new_err w); [injection Hs as <-; auto |].
      destruct (prepareTemplates_ok _ _ _ _ Hprep) as (Hp' & _).
      rewrite Hp' in Hs. discriminate.
  - rewrite (Run_read _ _ _ _ _ _ _ Hs).
    apply startRun_inr in Hs as (tr & -> & _).
    destruct (ReadLine p1 T (keys w) st0) as [[line [e |]] st]; cbn [fst snd];
      [rewrite finishRun_error | rewrite finishRun_ok]; auto.
Qed.

Lemma newLoc_fresh (h : Heap) : h !! newLoc h = None.
Proof. apply not_elem_of_dom. unfold newLoc. apply is_fresh. Qed.

Lemma prepareTemplates_extends p s :
  extends (tplsOf p s.1) (allocated p s) (prepareTemplates p s).2.
Proof.
  rewrite prepareTemplates_eq.
  eapply extends_trans; [apply extends_withFuncMap | apply sound_compileAll].
Qed.

(** Run leaves every field of the prompt but Templates as it was, and
    in the store writes only the template set of the run, where a
    non-empty source and a non-nil FuncMap are kept. *)
Lemma Run_keeps
    (p : Prompt) (h : Heap) (w : World) :
  let r := Run p h w in
  let q := rr_prompt r in
  let l := tplsOf p h in
  (Label q = Label p ∧ Default q = Default p ∧ AllowEdit q = AllowEdit p
   ∧ Validate q = Validate p ∧ Mask q = Mask p
   ∧ LazyValidation q = LazyValidation p ∧ IsConfirm q = IsConfirm p
   ∧ IsVimMode q = IsVimMode p ∧ Pointer q = Pointer p
   ∧ Stdin q = Stdin p ∧ Stdout q = Stdout p)
  ∧ Templates q
    = match (prepareTemplates p (h, [])).1 with
      | inl _ => Templates p
      | inr _ => Some l
      end
  ∧ (∀ l', l' ≠ l -> rr_heap r !! l' = h !! l')
  ∧ match Templates p with
    | Some l0 => l = l0 ∧ Templates q = Some l0
                 ∧ keeps (h !!! l0) (rr_heap r !!! l0)
    | None => h !! l = None
    end.
Proof.
  intros r q l. subst r q.
  destruct (Run_leaves p h w) as (Hh & Hq & _). rewrite Hh, Hq.
  pose proof (prepareTemplates_extends p (h, [])) as (Hframe & Hkeep & _).
  cbn [fst snd] in Hframe, Hkeep. fold l in Hframe, Hkeep.
  assert (Hq' : match (prepareTemplates p (h, [])).1 with
                | inl _ => p
                | inr p' => p'
                end
                = match (prepareTemplates p (h, [])).1 with
                  | inl _ => p
                  | inr _ => set_Templates (Some l) p
                  end).
  { destruct (prepareTemplates p (h, [])) as [[e | p'] s'] eqn:Hprep;
      [reflexivity |].
    destruct (prepareTemplates_ok _ _ _ _ Hprep) as (-> & _). reflexivity. }
  rewrite Hq'. clear Hq'.
  split; [destruct (prepareTemplates p (h, [])).1; cbn; tauto |].
  split; [destruct (prepareTemplates p (h, [])).1; reflexivity |].
  unfold allocated in Hframe, Hkeep. subst l. unfold tplsOf in *.
  destruct (Templates p) as [l0 |] eqn:HT; cbn [fst] in *.
  - split; [exact Hframe |]. split; [reflexivity |].
    split; [| exact Hkeep].
    destruct (prepareTemplates p (h, [])).1; cbn; [exact HT | reflexivity].
  - split; [| apply newLoc_fresh].
    intros l' Hl'. rewrite (Hframe l' Hl'). apply lookup_insert_ne. congruence.
Qed.

(** ** Confirm mode and the default text *)

Lemma compileAll_set_Default p l s D :
  IsConfirm p = true ->
  defaultYes D = defaultYes (Default p) ->
  compileAll (set_Default D p) l s
  = onResult (set_Default D) (compileAll p l s).
Proof.
  intros Hc HD. unfold compileAll, compileRest. cbn [IsConfirm set_Default].
  rewrite Hc.
  assert (Hd : defaultConfirm (set_Default D p) = defaultConfirm p).
  { unfold defaultConfirm, confirmHint. cbn [Default set_Default].
    unfold defaultYes in HD. rewrite HD. reflexivity. }
  rewrite Hd. unfold bind, onResult.
  repeat match goal with
         | |- context [compile ?a ?b ?c ?d ?e ?s] =>
             destruct (compile a b c d e s) as [[? | ?] ?]; [reflexivity |]
         end.
  reflexivity.
Qed.

Lemma prepareTemplates_set_Default p s D :
  IsConfirm p = true ->
  defaultYes D = defaultYes (Default p) ->
  prepareTemplates (set_Default D p) s
  = onResult (set_Default D) (prepareTemplates p s).
Proof.
  intros Hc HD. rewrite !prepareTemplates_eq.
  apply (compileAll_set_Default p _ _ D Hc HD).
Qed.

Lemma readLoop_set_Default p T D script :
  ∀ st, readLoop (set_Default D p) T script st = readLoop p T script st.
Proof.
  induction script as [| i script IH]; intros st; [reflexivity |].
  destruct i as [r line pos | e]; [| reflexivity].
  cbn [readLoop].
  change (filterInputRune (set_Default D p) T r st)
    with (filterInputRune p T r st).
  destruct (filterInputRune p T r st) as [[r' process] st1].
  destruct process; cbn [negb]; [| apply IH].
  destruct (isSubmit r'); [reflexivity |].
  change (listen (set_Default D p) T line pos r' st1)
    with (listen p T line pos r' st1).
  destruct (listen p T line pos r' st1). apply IH.
Qed.

Lemma ReadLine_set_Default p T D script st :
  ReadLine (set_Default D p) T script st = ReadLine p T script st.
Proof.
  unfold ReadLine.
  change (listen (set_Default D p) T [] 0 0 st) with (listen p T [] 0 0 st).
  destruct (listen p T [] 0 0 st). apply readLoop_set_Default.
Qed.

Lemma finishRun_set_Default p h T D rd st :
  defaultYes D = defaultYes (Default p) ->
  finishRun (set_Default D p) h T rd st
  = withDefault D (finishRun p h T rd st).
Proof.
  intros HD. destruct rd as [line [e |]].
  - rewrite !finishRun_error. reflexivity.
  - rewrite !finishRun_ok. unfold withDefault, finalLine, confirmAborts.
    cbn [rr_value rr_err rr_prompt rr_heap rr_trace rr_panic IsConfirm Default
         set_Default Label masked Mask].
    unfold defaultYes in HD. rewrite HD. reflexivity.
Qed.

Lemma Run_set_Default p h w D :
  IsConfirm p = true ->
  defaultYes D = defaultYes (Default p) ->
  Run (set_Default D p) h w = withDefault D (Run p h w).
Proof.
  intros Hc HD. unfold Run, startRun.
  rewrite (prepareTemplates_set_Default p (h, []) D Hc HD).
  destruct (prepareTemplates p (h, [])) as [[e | p'] [h' tr]] eqn:Hprep;
    cbn [onResult]; [reflexivity |].
  destruct (prepareTemplates_ok _ _ _ _ Hprep) as (Hp' & _).
  destruct (new_err w); [reflexivity |].
  change (Templates (set_Default D p')) with (Templates p').
  destruct (deref h' (Templates p')) as [T |]; [| reflexivity].
  assert (Hcur : initialCursor (set_Default D p') = initialCursor p').
  { unfold initialCursor, eraseDefault, initialInput. rewrite Hp'.
    cbn [IsConfirm set_Default set_Templates Pointer AllowEdit].
    rewrite Hc. reflexivity. }
  rewrite Hcur.
  change (config (set_Default D p')) with (config p').
  rewrite ReadLine_set_Default.
  destruct (ReadLine p' T (keys w) _) as [rd st].
  apply finishRun_set_Default. rewrite Hp'. exact HD.
Qed.

Lemma defaultConfirm_nonempty p : defaultConfirm p ≠ "".
Proof. unfold defaultConfirm. cbn. discriminate. Qed.

Lemma prepared_Confirm p h tr :
  T_Confirm ((withFuncMap (tplsOf p h) (allocated p (h, tr))).1 !!! tplsOf p h)
  = T_Confirm (givenTemplates p h).
Proof.
  assert (Ha : (allocated p (h, tr)).1 !!! tplsOf p h = givenTemplates p h).
  { unfold allocated, tplsOf, givenTemplates.
    destruct (Templates p); cbn; [reflexivity |].
    apply lookup_total_insert_eq. }
  unfold withFuncMap. rewrite Ha.
  destruct (T_FuncMap (givenTemplates p h)); [rewrite Ha; reflexivity |].
  cbn. rewrite lookup_total_insert_eq. reflexivity.
Qed.

Lemma built_in_confirm p h p' s' :
  IsConfirm p = true ->
  T_Confirm (givenTemplates p h) = "" ->
  prepareTemplates p (h, []) = (inr p', s') ->
  T_Confirm (s'.1 !!! tplsOf p h) = defaultConfirm p.
Proof.
  intros Hc Hempty. rewrite prepareTemplates_eq. cbn [fst].
  pose proof (prepared_Confirm p h []) as Hs2.
  set (l := tplsOf p h) in *.
  set (s2 := withFuncMap l (allocated p (h, []))) in *.
  unfold compileAll. rewrite Hc. intros H.
  apply bind_ok in H as ([] & s3 & H1 & H).
  assert (H3 : T_Confirm (s3.1 !!! l) = defaultConfirm p).
  { rewrite compile_eq in H1. unfold filledAt in H1.
    rewrite Hs2, Hempty in H1. cbn in H1.
    rewrite lookup_total_insert_eq in H1. cbn in H1.
    destruct (Parse _ _); [discriminate |].
    injection H1 as <-. cbn. rewrite lookup_total_insert_eq. reflexivity. }
  pose proof (sound_compileRest p l s3) as (_ & (Hsrc & _) & _).
  rewrite H in Hsrc. cbn [snd] in Hsrc. rewrite Forall_forall in Hsrc.
  rewrite <- H3. apply (Hsrc T_Confirm).
  - unfold sources. in_list.
  - rewrite H3. apply defaultConfirm_nonempty.
Qed.

(** C10. In confirm mode the cursor starts from the empty string with
    erase-on-edit off, whatever the default text.  The hint of the
    built-in confirm template is Y/n when the lower-cased default is y
    and y/N otherwise.  Beyond that test the default text plays no part:
    a run under another default text that agrees on it returns the same
    value and error and leaves the same store and trace. *)
Theorem confirm_default_only_selects
    (p : Prompt) (h : Heap) (w : World) (D : string) :
  IsConfirm p = true ->
  initialCursor p = NewCursor "" (Pointer p) false
  ∧ (∀ p1 h1 T st0,
       startRun p h w = inr (p1, h1, T, st0) ->
       cur st0 = NewCursor "" (Pointer p) false)
  ∧ (∀ p' s',
       T_Confirm (givenTemplates p h) = "" ->
       prepareTemplates p (h, []) = (inr p', s') ->
       T_Confirm (s'.1 !!! tplsOf p h)
       = "{{ " +:+ dq +:+ IconInitial +:+ dq
           +:+ " | bold }} {{ . | bold }}? {{ " +:+ dq +:+ "["
           +:+ (if defaultYes (Default p) then "Y/n" else "y/N")
           +:+ "]" +:+ dq +:+ " | faint }} ")
  ∧ (defaultYes D = defaultYes (Default p) ->
     let r := Run p h w in
     let r' := Run (set_Default D p) h w in
     rr_value r' = rr_value r ∧ rr_err r' = rr_err r
     ∧ rr_heap r' = rr_heap r ∧ rr_trace r' = rr_trace r
     ∧ rr_prompt r' = set_Default D (rr_prompt r)).
Proof.
  intros Hc.
  assert (Hcur : initialCursor p = NewCursor "" (Pointer p) false).
  { unfold initialCursor, eraseDefault, initialInput. rewrite Hc. reflexivity. }
  split; [exact Hcur |]. split; [| split].
  - intros p1 h1 T st0 Hs.
    apply startRun_prompt in Hs as (-> & _ & tr & _ & ->). exact Hcur.
  - intros p' s' Hempty Hprep.
    apply (built_in_confirm p h p' s' Hc Hempty Hprep).
  - intros HD r r'. subst r r'. rewrite (Run_set_Default p h w D Hc HD).
    unfold withDefault. cbn. auto.
Qed.

End Theory.

(** * Further properties of prepareTemplates and Run *)

Section More.
Context {E : Externals}.

Lemma acts_ret l {A} (a : A) : acts l (ret a) (retT a).
Proof. intros s. cbn. rewrite app_nil_r. auto. Qed.

Lemma acts_bind l {A B} (m : Prep A) (k : A -> Prep B) f g :
  acts l m f -> (∀ a, acts l (k a) (g a)) -> acts l (bind m k) (bindT f g).
Proof.
  intros Hm Hk s. unfold bind, bindT.
  destruct (Hm s) as (H1 & H2 & H3).
  destruct (m s) as [[e | a] s1]; destruct (f (s.1 !!! l)) as [[[e' | a'] T'] evs];
    cbn in H1, H2, H3; try discriminate.
  - injection H1 as ->. cbn. auto.
  - injection H1 as ->. destruct (Hk a' s1) as (K1 & K2 & K3).
    rewrite H2 in K1, K2, K3.
    destruct (g a' T') as [[r T''] evs']. cbn in *.
    rewrite K1, K2, K3, H3, app_assoc. auto.
Qed.

Lemma acts_compile l src set_src dflt set_tpl :
  (∀ T, set_src (src T) T = T) ->
  acts l (compile l src set_src dflt set_tpl)
    (compileT src set_src dflt set_tpl).
Proof.
  intros Hid s. rewrite compile_eq. unfold compileT, filledAt, effective.
  cbn zeta.
  destruct (String.eqb (src (s.1 !!! l)) ""); cbn [fst snd];
    rewrite ?lookup_total_insert_eq, ?Hid;
    destruct (Parse _ _); cbn; rewrite ?lookup_total_insert_eq; auto.
Qed.

Lemma acts_compileAll p l : acts l (compileAll p l) (compileAllT p l).
Proof.
  unfold compileAll, compileRest, compileAllT.
  repeat (apply acts_bind; [| intros _]); try apply acts_ret;
    try destruct (IsConfirm p); apply acts_compile; intros []; reflexivity.
Qed.

Ltac first_failure :=
  split; [reflexivity |];
  split; [repeat constructor; eexists; eassumption |];
  split; [eassumption | reflexivity].

Ltac fails_somewhere :=
  first
    [ solve [eexists [], _, _; first_failure]
    | solve [eexists [_], _, _; first_failure]
    | solve [eexists [_; _], _, _; first_failure]
    | solve [eexists [_; _; _], _, _; first_failure]
    | solve [eexists [_; _; _; _], _, _; first_failure]
    | solve [eexists [_; _; _; _; _], _, _; first_failure] ].

Ltac parse_step :=
  match goal with
  | |- context [Parse ?fm ?s] =>
      let H := fresh "HP" in destruct (Parse fm s) eqn:H; cbn
  end.

Lemma prepareT_spec p l G :
  let fm := usedFuncMap G in
  let srcs := slotSources p G in
  match prepareT p l G with
  | (inl e, T', evs) =>
      T_FuncMap T' = fm
      ∧ ∃ pre src post,
          srcs = (pre ++ src :: post)%list
          ∧ Forall (parses fm) pre
          ∧ Parse fm src = inl e
          ∧ evs = map (EvParse fm) (pre ++ [src])%list
  | (inr p', T', evs) =>
      p' = set_Templates (Some l) p
      ∧ evs = map (EvParse fm) srcs
      ∧ ∃ tp tv tu ti te ts,
          Forall2 (fun s t => Parse fm s = inr t) srcs [tp; tv; tu; ti; te; ts]
          ∧ T' = preparedTemplates p G tp tv tu ti te ts
  end.
Proof.
  destruct G as [sP sC sV sI sS sU sE fmo cp cv ci ce cs cu].
  unfold prepareT, compileAllT, bindT, compileT, retT, slotSources,
    usedFuncMap, preparedTemplates, fillFuncMap, parses.
  cbn.
  destruct fmo; destruct (IsConfirm p); cbn;
    repeat parse_step;
    first
      [ solve [split; [reflexivity |]; split; [reflexivity |];
               do 6 eexists; split; [repeat constructor; eassumption | reflexivity]]
      | split; [reflexivity | fails_somewhere] ].
Qed.

Lemma acts_prepareTemplates p s :
  let l := tplsOf p s.1 in
  let G := givenTemplates p s.1 in
  (prepareTemplates p s).1 = (prepareT p l G).1.1
  ∧ (prepareTemplates p s).2.1 !!! l = (prepareT p l G).1.2
  ∧ (prepareTemplates p s).2.2 = (s.2 ++ (prepareT p l G).2)%list.
Proof.
  intros l G. rewrite prepareTemplates_eq. fold l.
  destruct (acts_compileAll p l (withFuncMap l (allocated p s)))
    as (H1 & H2 & H3).
  rewrite prepared_trace in H3.
  assert (Hcell : (withFuncMap l (allocated p s)).1 !!! l = fillFuncMap G).
  { assert (Ha : (allocated p s).1 !!! l = G).
    { subst l G. unfold allocated, tplsOf, givenTemplates.
      destruct (Templates p); cbn; [reflexivity |].
      apply lookup_total_insert_eq. }
    unfold withFuncMap, fillFuncMap. rewrite Ha.
    destruct (T_FuncMap G); [exact Ha |].
    cbn. apply lookup_total_insert_eq. }
  rewrite Hcell in H1, H2, H3. unfold prepareT. auto.
Qed.

(** X1. When prepareTemplates returns an error, it is the error of the
    first of the six sources, in the order prompt or confirm, valid,
    unvalidated, invalid, validation error, success, that does not
    parse: the sources before it parse, and the parse calls made are
    those up to it, none after.  The prompt is not written, but the
    template set is: it holds the function map the sources were parsed
    with. *)
Theorem prepareTemplates_first_failure
    (p : Prompt) (h : Heap) (tr : list Event) (e : error) (s' : PrepState) :
  prepareTemplates p (h, tr) = (inl e, s') ->
  let G := givenTemplates p h in
  let fm := usedFuncMap G in
  T_FuncMap (s'.1 !!! tplsOf p h) = fm
  ∧ ∃ pre src post,
      slotSources p G = (pre ++ src :: post)%list
      ∧ Forall (parses fm) pre
      ∧ Parse fm src = inl e
      ∧ s'.2 = (tr ++ map (EvParse fm) (pre ++ [src]))%list.
Proof.
  intros H G fm.
  destruct (acts_prepareTemplates p (h, tr)) as (H1 & H2 & H3).
  cbn [fst snd] in H1, H2, H3. fold G in H1, H2, H3. rewrite H in H1, H2, H3.
  cbn [fst snd] in H1, H2, H3.
  pose proof (prepareT_spec p (tplsOf p h) G) as Hspec. cbn zeta in Hspec.
  fold fm in Hspec.
  destruct (prepareT p (tplsOf p h) G) as [[[e' | p'] T'] evs];
    cbn [fst snd] in H1, H2, H3; [| discriminate].
  injection H1 as <-.
  destruct Hspec as (Hfm & pre & src & post & Hs & Hpre & Hsrc & Hevs).
  split; [rewrite H2; exact Hfm |].
  exists pre, src, post. rewrite H3, Hevs. auto.
Qed.

Lemma prepared_success p h tr p' s' :
  prepareTemplates p (h, tr) = (inr p', s') ->
  let G := givenTemplates p h in
  let fm := usedFuncMap G in
  let l := tplsOf p h in
  p' = set_Templates (Some l) p
  ∧ s'.2 = (tr ++ map (EvParse fm) (slotSources p G))%list
  ∧ ∃ tp tv tu ti te ts,
      Forall2 (fun s t => Parse fm s = inr t) (slotSources p G)
        [tp; tv; tu; ti; te; ts]
      ∧ s'.1 !!! l = preparedTemplates p G tp tv tu ti te ts.
Proof.
  intros Hp G fm l.
  destruct (acts_prepareTemplates p (h, tr)) as (H1 & H2 & H3).
  cbn [fst snd] in H1, H2, H3. fold G l in H1, H2, H3.
  pose proof (prepareT_spec p l G) as Hspec. cbn zeta in Hspec.
  fold fm in Hspec. rewrite Hp in H1, H2, H3. cbn [fst snd] in H1, H2, H3.
  destruct (prepareT p l G) as [[[e' | q] T'] evs];
    cbn [fst snd] in H1, H2, H3; [discriminate |].
  injection H1 as ->.
  destruct Hspec as (Hq & Hevs & tp & tv & tu & ti & te & ts & Hall & HT).
  split; [exact Hq |]. split; [rewrite H3, Hevs; reflexivity |].
  exists tp, tv, tu, ti, te, ts. split; [exact Hall |].
  rewrite H2. exact HT.
Qed.

Lemma prepared_complete p h tr :
  Forall (parses (usedFuncMap (givenTemplates p h)))
    (slotSources p (givenTemplates p h)) ->
  ∃ p' s', prepareTemplates p (h, tr) = (inr p', s').
Proof.
  intros Hall.
  destruct (prepareTemplates p (h, tr)) as [[e | p'] s'] eqn:Hp; [| eauto].
  exfalso.
  destruct (acts_prepareTemplates p (h, tr)) as (H1 & _ & _).
  cbn [fst snd] in H1. rewrite Hp in H1. cbn [fst] in H1.
  pose proof (prepareT_spec p (tplsOf p h) (givenTemplates p h)) as Hspec.
  cbn zeta in Hspec.
  destruct (prepareT p (tplsOf p h) (givenTemplates p h)) as [[[e' | q] T'] evs];
    cbn [fst snd] in H1; [| discriminate].
  destruct Hspec as (_ & pre & src & post & Hs & _ & Hsrc & _).
  rewrite Hs in Hall. apply Forall_app in Hall as [_ Hall].
  apply Forall_cons in Hall as [[tpl Htpl] _]. congruence.
Qed.

(** X2. prepareTemplates succeeds exactly when the six sources parse.
    It then stores a pointer to the template set in the prompt, has
    parsed the six sources in order, each once, under the function map
    given or else the package's, and leaves the template set with each
    parsed source in its field, the other of Prompt and Confirm as given,
    that function map, and the six templates compiled from them. *)
Theorem prepareTemplates_result
    (p : Prompt) (h : Heap) (tr : list Event) :
  let G := givenTemplates p h in
  let fm := usedFuncMap G in
  let l := tplsOf p h in
  ((∃ p' s', prepareTemplates p (h, tr) = (inr p', s'))
   ↔ Forall (parses fm) (slotSources p G))
  ∧ ∀ p' s',
      prepareTemplates p (h, tr) = (inr p', s') ->
      p' = set_Templates (Some l) p
      ∧ s'.2 = (tr ++ map (EvParse fm) (slotSources p G))%list
      ∧ ∃ tp tv tu ti te ts,
          Forall2 (fun s t => Parse fm s = inr t) (slotSources p G)
            [tp; tv; tu; ti; te; ts]
          ∧ s'.1 !!! l = preparedTemplates p G tp tv tu ti te ts.
Proof.
  intros G fm l. split; [split |].
  - intros (p' & s' & Hp).
    destruct (prepared_success p h tr p' s' Hp)
      as (_ & _ & tp & tv & tu & ti & te & ts & Hall & _).
    fold G fm in Hall. clear - Hall.
    induction Hall; constructor; [eexists; eassumption | assumption].
  - apply prepared_complete.
  - intros p' s' Hp. apply (prepared_success p h tr p' s' Hp).
Qed.

Lemma append_nonempty (a b : string) : b ≠ "" -> a +:+ b ≠ "".
Proof. destruct a; cbn; [auto | discriminate]. Qed.

Lemma defaultLabel_nonempty icon : defaultLabel icon ≠ "".
Proof. unfold defaultLabel. apply append_nonempty. cbn. discriminate. Qed.

Lemma effective_given x d : x ≠ "" -> effective x d = x.
Proof.
  unfold effective. destruct (String.eqb_spec x ""); [contradiction | auto].
Qed.

Lemma effective_nonempty x d : d ≠ "" -> effective x d ≠ "".
Proof.
  unfold effective. destruct (String.eqb_spec x ""); auto.
Qed.

Lemma effective_again x d d' : d ≠ "" -> effective (effective x d) d' = effective x d.
Proof. intros Hd. apply effective_given, effective_nonempty, Hd. Qed.

Lemma defaultValidationError_nonempty : defaultValidationError ≠ "".
Proof. unfold defaultValidationError. cbn. discriminate. Qed.

Lemma defaultSuccess_nonempty : defaultSuccess ≠ "".
Proof. unfold defaultSuccess. cbn. discriminate. Qed.

(** The template set prepareTemplates leaves is one it leaves as it is. *)
Lemma prepared_fixpoint p q G tp tv tu ti te ts :
  IsConfirm q = IsConfirm p ->
  let G' := preparedTemplates p G tp tv tu ti te ts in
  slotSources q G' = slotSources p G
  ∧ usedFuncMap G' = usedFuncMap G
  ∧ preparedTemplates q G' tp tv tu ti te ts = G'.
Proof.
  intros Hc G'. subst G'. unfold slotSources, preparedTemplates, usedFuncMap.
  cbn. rewrite Hc.
  rewrite !(effective_again _ _ _ (defaultLabel_nonempty _)),
    !(effective_again _ _ _ defaultValidationError_nonempty),
    !(effective_again _ _ _ defaultSuccess_nonempty).
  destruct (IsConfirm p);
    rewrite ?(effective_again _ _ _ (defaultConfirm_nonempty p)),
      ?(effective_again _ _ _ (defaultLabel_nonempty _));
    destruct (T_FuncMap G); auto.
Qed.

(** X3. Preparing the templates of a prepared prompt again changes
    nothing, whatever default text the prompt has by then: the same six
    sources are parsed under the same function map, the template set and
    the pointer stay as they are.  In particular the hint of a built-in
    confirm template stays the one of the first preparation. *)
Theorem prepareTemplates_again
    (p : Prompt) (h : Heap) (tr : list Event) (p' : Prompt) (s' : PrepState)
    (D : string) (tr2 : list Event) :
  prepareTemplates p (h, tr) = (inr p', s') ->
  let G := givenTemplates p h in
  let l := tplsOf p h in
  let q := set_Default D p' in
  ∃ s'',
    prepareTemplates q (s'.1, tr2) = (inr q, s'')
    ∧ s''.1 !!! l = s'.1 !!! l
    ∧ (∀ l', l' ≠ l -> s''.1 !! l' = s'.1 !! l')
    ∧ s''.2 = (tr2 ++ map (EvParse (usedFuncMap G)) (slotSources p G))%list.
Proof.
  intros Hp G l q.
  destruct (prepared_success p h tr p' s' Hp)
    as (Hp' & _ & tp & tv & tu & ti & te & ts & Hall & HT).
  fold G l in Hp', Hall, HT.
  assert (Hq : Templates q = Some l) by (subst q; rewrite Hp'; reflexivity).
  assert (Hc : IsConfirm q = IsConfirm p) by (subst q; rewrite Hp'; reflexivity).
  assert (HG : givenTemplates q s'.1 = preparedTemplates p G tp tv tu ti te ts)
    by (unfold givenTemplates; rewrite Hq; exact HT).
  assert (Hl : tplsOf q s'.1 = l) by (unfold tplsOf; rewrite Hq; reflexivity).
  destruct (prepared_fixpoint p q G tp tv tu ti te ts Hc) as (Hsrc & Hfm & Hfix).
  destruct (prepared_complete q s'.1 tr2) as (q' & s'' & Hq').
  { rewrite HG, Hsrc, Hfm. clear - Hall.
    induction Hall; constructor; [eexists; eassumption | assumption]. }
  destruct (prepared_success q s'.1 tr2 q' s'' Hq')
    as (Hq'' & Htr & tp' & tv' & tu' & ti' & te' & ts' & Hall' & HT').
  rewrite HG, Hsrc, Hfm in Hall', Htr. rewrite HG, Hl in HT'. rewrite Hl in Hq''.
  assert (Hts : [tp'; tv'; tu'; ti'; te'; ts'] = [tp; tv; tu; ti; te; ts]).
  { clear - Hall Hall'. revert Hall'. generalize [tp'; tv'; tu'; ti'; te'; ts'].
    induction Hall as [| a t srcs ts0 Ha _ IH]; intros l0 H0; inversion H0; subst.
    - reflexivity.
    - f_equal; [congruence | apply IH; assumption]. }
  injection Hts as -> -> -> -> -> ->.
  exists s''. split; [| split; [| split]].
  - rewrite Hq'. f_equal. f_equal. rewrite Hq''. subst q. rewrite Hp'. reflexivity.
  - rewrite HT', Hfix. symmetry. exact HT.
  - intros l' Hl'.
    pose proof (prepareTemplates_extends q (s'.1, tr2)) as (Hframe & _).
    rewrite Hq' in Hframe. cbn [fst snd] in Hframe. rewrite Hl in Hframe.
    rewrite (Hframe l' Hl'). unfold allocated. rewrite Hq. reflexivity.
  - exact Htr.
Qed.

(** ** The read *)

Lemma listen_cur p T input pos key st :
  cur (listen p T input pos key st).2 = (Listen (cur st) input pos key).2.
Proof.
  unfold listen. destruct (Listen (cur st) input pos key) as [[[l z] k] c].
  cbn. destruct (LazyValidation p); cbn; [reflexivity |].
  destruct (validFn p (Get c)); reflexivity.
Qed.

Lemma filter_cur p T r st : cur (filterInputRune p T r st).2 = cur st.
Proof.
  destruct (isSubmit r) eqn:Hs.
  - rewrite (filter_submit p T r st Hs). cbn zeta.
    destruct (validFn p (Get (cur st))); reflexivity.
  - rewrite (filter_nonSubmit p T r st Hs). reflexivity.
Qed.

(** What the read returns and the cursor it leaves depend on the cursor
    it starts from and on the validator only. *)
Lemma readLoop_cur p q T U script :
  (∀ x, validFn q x = validFn p x) ->
  ∀ st st', cur st' = cur st ->
    (readLoop q U script st').1 = (readLoop p T script st).1
    ∧ cur (readLoop q U script st').2 = cur (readLoop p T script st).2.
Proof.
  intros Hv. induction script as [| i script IH]; intros st st' Hc.
  - cbn. auto.
  - destruct i as [r line pos | e]; cbn [readLoop]; [| cbn; auto].
    destruct (isSubmit r) eqn:Hs.
    + rewrite (filter_submit p T r st Hs), (filter_submit q U r st' Hs).
      cbn zeta. rewrite Hc, Hv.
      destruct (validFn p (Get (cur st))); cbn [negb].
      * apply IH. reflexivity.
      * rewrite Hs. cbn. auto.
    + rewrite (filter_nonSubmit p T r st Hs), (filter_nonSubmit q U r st' Hs).
      cbn [negb]. rewrite Hs.
      pose proof (listen_cur p T line pos r st) as Hp.
      pose proof (listen_cur q U line pos r st') as Hq.
      destruct (listen p T line pos r st) as [o1 st1].
      destruct (listen q U line pos r st') as [o2 st2].
      apply IH. cbn in Hp, Hq. rewrite Hp, Hq, Hc. reflexivity.
Qed.

Lemma ReadLine_cur p q T U script st st' :
  (∀ x, validFn q x = validFn p x) ->
  cur st' = cur st ->
  (ReadLine q U script st').1 = (ReadLine p T script st).1
  ∧ cur (ReadLine q U script st').2 = cur (ReadLine p T script st).2.
Proof.
  intros Hv Hc. unfold ReadLine.
  pose proof (listen_cur p T [] 0 0 st) as Hp.
  pose proof (listen_cur q U [] 0 0 st') as Hq.
  destruct (listen p T [] 0 0 st) as [o1 st1].
  destruct (listen q U [] 0 0 st') as [o2 st2].
  apply readLoop_cur; [exact Hv |]. cbn in Hp, Hq. rewrite Hp, Hq, Hc.
  reflexivity.
Qed.

(** Keys other than Enter and Ctrl-J are handed to the listener one by
    one, and the read goes on after them. *)
Lemma readLoop_keys p T pre :
  Forall plainKey pre ->
  ∀ st, ∃ st1,
    cur st1 = afterKeys (cur st) pre
    ∧ ∀ rest, readLoop p T (pre ++ rest) st = readLoop p T rest st1.
Proof.
  induction 1 as [| i pre Hi _ IH]; intros st.
  - exists st. auto.
  - destruct i as [r line pos | e]; [| contradiction]. cbn in Hi.
    pose proof (listen_cur p T line pos r st) as Hc.
    destruct (listen p T line pos r st) as [o st0] eqn:Hl.
    destruct (IH st0) as (st1 & Hc1 & Hrest).
    exists st1. split.
    + rewrite Hc1. cbn in Hc. rewrite Hc. reflexivity.
    + intros rest. cbn [app readLoop].
      rewrite (filter_nonSubmit p T r st Hi). cbn [negb]. rewrite Hi, Hl.
      apply Hrest.
Qed.

(** A read that returns no error returns at an Enter the validator
    accepted. *)
Lemma readLoop_valid p T script :
  ∀ st line st',
    readLoop p T script st = ((line, None), st') ->
    validFn p (Get (cur st')) = None.
Proof.
  induction script as [| i script IH]; intros st line st'; [discriminate |].
  destruct i as [r line0 pos | e]; cbn [readLoop]; [| discriminate].
  destruct (isSubmit r) eqn:Hs.
  - rewrite (filter_submit p T r st Hs). cbn zeta.
    destruct (validFn p (Get (cur st))) eqn:Hv; cbn [negb].
    + apply IH.
    + rewrite Hs. intros [= _ <-]. exact Hv.
  - rewrite (filter_nonSubmit p T r st Hs). cbn [negb]. rewrite Hs.
    destruct (listen p T line0 pos r st) as [o st0]. apply IH.
Qed.

(** ** Runs *)

Lemma startRun_world p h w w' :
  new_err w' = new_err w -> startRun p h w' = startRun p h w.
Proof. intros H. unfold startRun. rewrite H. reflexivity. Qed.

Lemma startRun_ok p h w :
  templatesParse p h -> new_err w = None ->
  ∃ (h1 : Heap) tr,
    startRun p h w
    = inr (set_Templates (Some (tplsOf p h)) p, h1, h1 !!! tplsOf p h,
           mkState (initialCursor p) None tr).
Proof.
  intros Hparse Hnew.
  destruct (prepared_complete p h [] Hparse) as (p' & [h1 tr] & Hp).
  destruct (prepareTemplates_ok _ _ _ _ Hp) as (Hp' & _). cbn in Hp'.
  exists h1. eexists. unfold startRun. rewrite Hp, Hnew, Hp'. reflexivity.
Qed.

(** What Run returns, from what the read returned. *)
Lemma Run_of_read p h w rd st :
  readReturn p h w = Some (rd, st) ->
  rr_value (Run p h w)
  = match rd.2 with
    | Some _ => ""
    | None => Get (cur st)
    end
  ∧ rr_err (Run p h w)
    = match rd.2 with
      | Some e => Some (engineError e)
      | None =>
          if IsConfirm p
             && confirmAborts (ToLower (Default p)) (ToLower (Get (cur st)))
          then Some ErrAbort else None
      end.
Proof.
  intros H. apply readReturn_inv in H as (p1 & h1 & T & st0 & Hs & _ & ->).
  apply startRun_prompt in Hs as (-> & _ & _).
  destruct rd as [line [e |]]; [rewrite finishRun_error | rewrite finishRun_ok];
    auto.
Qed.

Lemma readReturn_ok p h w :
  templatesParse p h -> new_err w = None ->
  ∃ (h1 : Heap) tr,
    readReturn p h w
    = Some (ReadLine (set_Templates (Some (tplsOf p h)) p)
              (h1 !!! tplsOf p h) (keys w)
              (mkState (initialCursor p) None tr)).
Proof.
  intros Hparse Hnew.
  destruct (startRun_ok p h w Hparse Hnew) as (h1 & tr & Hs).
  exists h1, tr. unfold readReturn. rewrite Hs. reflexivity.
Qed.

(** The read of a run over keys that end in an accepted Enter. *)
Lemma read_typed p T pre r line pos rest st :
  Forall plainKey pre -> isSubmit r = true ->
  let c := afterKeys (Listen (cur st) [] 0 0).2 pre in
  validFn p (Get c) = None ->
  ∃ st', ReadLine p T (pre ++ InKey r line pos :: rest) st = ((line, None), st')
         ∧ cur st' = c.
Proof.
  intros Hpre Hs c Hv. unfold ReadLine.
  pose proof (listen_cur p T [] 0 0 st) as Hc0.
  destruct (listen p T [] 0 0 st) as [o st0]. cbn in Hc0.
  destruct (readLoop_keys p T pre Hpre st0) as (st1 & Hc1 & Hrest).
  rewrite Hrest. cbn [readLoop].
  rewrite (filter_submit p T r st1 Hs). cbn zeta.
  rewrite Hc1, Hc0. fold c. rewrite Hv. cbn [negb]. rewrite Hs.
  eexists. split; reflexivity.
Qed.

(** X4. A run whose read returns no error returns a value the
    validator accepts: the value of the cursor when the read returned.
    Outside confirm mode its error is nil. *)
Theorem completed_run_returns_valid_value
    (p : Prompt) (h : Heap) (w : World) (line : list rune) (st : RunState) :
  readReturn p h w = Some ((line, None), st) ->
  rr_value (Run p h w) = Get (cur st)
  ∧ validFn p (rr_value (Run p h w)) = None
  ∧ (IsConfirm p = false -> rr_err (Run p h w) = None).
Proof.
  intros H. destruct (Run_of_read _ _ _ _ _ H) as (Hv & He). cbn in Hv, He.
  rewrite Hv. split; [reflexivity |]. split.
  - apply readReturn_inv in H as (p1 & h1 & T & st0 & Hs & HR & _).
    apply startRun_prompt in Hs as (-> & _ & _).
    unfold ReadLine in HR. destruct (listen _ _ [] 0 0 st0) as [o st1].
    apply readLoop_valid in HR. exact HR.
  - intros Hc. rewrite He, Hc. reflexivity.
Qed.

(** X5. Run returns what was typed.  When the templates parse and the
    engine is built, and the keys read are keys other than Enter and
    Ctrl-J followed by an Enter or Ctrl-J at which the validator accepts
    the value of the cursor, the cursor being the one the listener has
    moved through those keys, Run returns that value: with a nil error,
    or in confirm mode with the error the acceptance rule gives.  What
    follows the Enter is not read. *)
Theorem run_returns_typed_value
    (p : Prompt) (h : Heap) (w : World)
    (pre : list Input) (r : rune) (line : list rune) (pos : Z)
    (rest : list Input) :
  templatesParse p h -> new_err w = None ->
  keys w = (pre ++ InKey r line pos :: rest)%list ->
  Forall plainKey pre -> isSubmit r = true ->
  let c := afterKeys (firstCursor p) pre in
  validFn p (Get c) = None ->
  rr_value (Run p h w) = Get c
  ∧ rr_err (Run p h w)
    = if IsConfirm p && confirmAborts (ToLower (Default p)) (ToLower (Get c))
      then Some ErrAbort else None.
Proof.
  intros Hparse Hnew Hkeys Hpre Hs c Hv.
  destruct (readReturn_ok p h w Hparse Hnew) as (h1 & tr & HR).
  rewrite Hkeys in HR.
  destruct (read_typed (set_Templates (Some (tplsOf p h)) p)
              (h1 !!! tplsOf p h) pre r line pos rest
              (mkState (initialCursor p) None tr) Hpre Hs Hv)
    as (st' & Hread & Hc).
  rewrite Hread in HR.
  destruct (Run_of_read _ _ _ _ _ HR) as (Hval & Herr). cbn in Hval, Herr.
  rewrite Hval, Herr, Hc. auto.
Qed.

Lemma finishRun_cur p h T rd st st' :
  cur st' = cur st ->
  rr_value (finishRun p h T rd st') = rr_value (finishRun p h T rd st)
  ∧ rr_err (finishRun p h T rd st') = rr_err (finishRun p h T rd st).
Proof.
  intros Hc. destruct rd as [line [e |]].
  - rewrite !finishRun_error. auto.
  - rewrite !finishRun_ok. cbn. rewrite Hc. auto.
Qed.

(** X6. An Enter the validator rejects changes nothing of what Run
    returns: the run returns the value and the error it returns when
    that key is not typed. *)
Theorem rejected_enter_is_dropped
    (p : Prompt) (h : Heap) (w : World)
    (pre : list Input) (r : rune) (line : list rune) (pos : Z)
    (rest : list Input) (e : error) :
  keys w = (pre ++ InKey r line pos :: rest)%list ->
  Forall plainKey pre -> isSubmit r = true ->
  validFn p (Get (afterKeys (firstCursor p) pre)) = Some e ->
  let w' := mkWorld (new_err w) (pre ++ rest) in
  rr_value (Run p h w) = rr_value (Run p h w')
  ∧ rr_err (Run p h w) = rr_err (Run p h w')
  ∧ rr_heap (Run p h w) = rr_heap (Run p h w').
Proof.
  intros Hkeys Hpre Hs Hv w'.
  assert (Hheap : rr_heap (Run p h w) = rr_heap (Run p h w')).
  { destruct (Run_leaves p h w) as (-> & _), (Run_leaves p h w') as (-> & _).
    reflexivity. }
  cut (rr_value (Run p h w) = rr_value (Run p h w')
       ∧ rr_err (Run p h w) = rr_err (Run p h w')); [tauto |].
  clear Hheap.
  assert (Hstart : startRun p h w' = startRun p h w)
    by (apply startRun_world; reflexivity).
  destruct (startRun p h w) as [res | [[[p1 h1] T] st0]] eqn:Hs0.
  - unfold Run. rewrite Hstart, Hs0. auto.
  - rewrite (Run_read _ _ _ _ _ _ _ Hs0), (Run_read _ _ _ _ _ _ _ Hstart).
    apply startRun_prompt in Hs0 as (Hp1 & _ & tr & _ & Hst0).
    rewrite Hkeys. subst w'. cbn [keys]. unfold ReadLine.
    pose proof (listen_cur p1 T [] 0 0 st0) as Hc0.
    destruct (listen p1 T [] 0 0 st0) as [o st00]. cbn in Hc0.
    destruct (readLoop_keys p1 T pre Hpre st00) as (st1 & Hc1 & Hrest).
    rewrite !Hrest. cbn [readLoop].
    rewrite (filter_submit p1 T r st1 Hs). cbn zeta.
    assert (Hcur : cur st1 = afterKeys (firstCursor p) pre)
      by (rewrite Hc1, Hc0, Hst0, Hp1; reflexivity).
    rewrite <- Hcur in Hv.
    replace (validFn p1) with (validFn p) by (rewrite Hp1; reflexivity).
    rewrite Hv. cbn [negb].
    match goal with
    | |- context [readLoop p1 T rest (mkState ?c ?e0 ?t)] =>
        destruct (readLoop_cur p1 p1 T T rest (fun _ => eq_refl) st1
                    (mkState c e0 t) eq_refl) as (Hrd & Hcur');
        destruct (readLoop p1 T rest (mkState c e0 t)) as [rd2 st3]
    end.
    destruct (readLoop p1 T rest st1) as [rd1 st2].
    cbn [fst snd] in *. subst rd2.
    destruct (finishRun_cur p1 h1 T rd1 st2 st3 Hcur') as (Hval & Herr).
    split; congruence.
Qed.

(** ** What a run calls *)

Lemma writes_app tr1 tr2 : writes (tr1 ++ tr2) = (writes tr1 ++ writes tr2)%list.
Proof. unfold writes. apply flat_map_app. Qed.

Lemma validations_app tr1 tr2 :
  validations (tr1 ++ tr2) = (validations tr1 ++ validations tr2)%list.
Proof. unfold validations. apply flat_map_app. Qed.

Lemma writes_none (P : Event -> Prop) tr :
  (∀ ev, P ev -> ∀ b, ev ≠ EvWrite b) -> Forall P tr -> writes tr = [].
Proof.
  intros HP. unfold writes, validations.
  induction 1 as [| ev tr Hev _ IH]; [reflexivity |].
  cbn. rewrite IH. destruct ev; cbn; try reflexivity.
  exfalso. eapply HP; [exact Hev | reflexivity].
Qed.

Lemma validations_none (P : Event -> Prop) tr :
  (∀ ev, P ev -> ∀ x, ev ≠ EvValidate x) -> Forall P tr -> validations tr = [].
Proof.
  intros HP. unfold writes, validations.
  induction 1 as [| ev tr Hev _ IH]; [reflexivity |].
  cbn. rewrite IH. destruct ev; cbn; try reflexivity.
  exfalso. eapply HP; [exact Hev | reflexivity].
Qed.

Lemma parse_no_write ev : isParse ev -> ∀ b, ev ≠ EvWrite b.
Proof. destruct ev; cbn; intros; congruence. Qed.

Lemma loop_no_write ev : loopEvent ev -> ∀ b, ev ≠ EvWrite b.
Proof. destruct ev; cbn; intros; congruence. Qed.

Lemma parse_no_validate ev : isParse ev -> ∀ x, ev ≠ EvValidate x.
Proof. destruct ev; cbn; intros; congruence. Qed.

(** The trace of a run: the parse calls, the construction of the
    engine, then, when the engine is built, the write that hides the
    cursor, the calls of the read and the calls that end the run. *)
Lemma Run_trace p h w :
  ∃ tr, Forall isParse tr
  ∧ match readReturn p h w with
    | None =>
        rr_trace (Run p h w) = tr
        ∨ ∃ c, rr_trace (Run p h w) = (tr ++ [EvNewEngine c])%list
    | Some (rd, st) =>
        ∃ c p1 T st0,
          st0 = mkState (initialCursor p1) None
                  (tr ++ [EvNewEngine c; EvWrite hideCursor])
          ∧ p1 = set_Templates (Some (tplsOf p h)) p
          ∧ T = rr_heap (Run p h w) !!! tplsOf p h
          ∧ ReadLine p1 T (keys w) st0 = (rd, st)
          ∧ rr_trace (Run p h w)
            = (trace st
                 ++ match rd.2 with
                    | Some _ => []
                    | None => [EvWrite (finalLine p T (cur st)); EvWrite newline;
                               EvWrite showCursor; EvClose]
                    end)%list
    end.
Proof.
  unfold readReturn.
  destruct (startRun p h w) as [res | [[[p1 h1] T] st0]] eqn:Hs.
  - unfold Run. rewrite Hs. unfold startRun in Hs.
    destruct (prepareTemplates p (h, [])) as [[e | p'] [h' tr]] eqn:Hprep.
    + injection Hs as <-. exists tr. split; [| left; reflexivity].
      destruct (prepareTemplates_parses p (h, [])) as (evs & Htr & Hevs).
      rewrite Hprep in Htr. cbn in Htr. subst tr. exact Hevs.
    + destruct (prepareTemplates_ok _ _ _ _ Hprep) as (Hp' & (evs & Htr & _ & Hevs) & _).
      cbn in Htr. subst tr.
      destruct (new_err w); [| rewrite Hp' in Hs; discriminate].
      injection Hs as <-. exists evs. split; [exact Hevs |]. right. eauto.
  - pose proof (Run_read _ _ _ _ _ _ _ Hs) as HR.
    destruct (Run_leaves p h w) as (Hheap & _).
    pose proof Hs as Hs'. apply startRun_inr in Hs' as (tr0 & Hprep & _).
    rewrite Hprep in Hheap. cbn in Hheap.
    apply startRun_prompt in Hs as (Hp1 & HT & tr & Htr & Hst0).
    exists tr. split; [exact Htr |].
    destruct (ReadLine p1 T (keys w) st0) as [rd st] eqn:Hread.
    exists (config p1), p1, T, st0. split; [exact Hst0 |].
    split; [exact Hp1 |]. split; [rewrite Hheap; exact HT |].
    split; [exact Hread |]. rewrite HR. cbn [fst snd].
    destruct rd as [line [e |]]; [rewrite finishRun_error | rewrite finishRun_ok];
      cbn [rr_trace snd]; [rewrite app_nil_r; reflexivity |].
    rewrite Hp1. reflexivity.
Qed.

Lemma outputs_app tr1 tr2 :
  outputs (tr1 ++ tr2) = (outputs tr1 ++ outputs tr2)%list.
Proof. unfold outputs. apply flat_map_app. Qed.

Lemma outputs_parse tr : Forall isParse tr -> outputs tr = [].
Proof.
  unfold outputs. induction 1 as [| ev tr Hev _ IH]; [reflexivity |].
  cbn. rewrite IH. destruct ev; cbn in Hev |- *; try reflexivity;
    try contradiction; try (destruct Hev; discriminate).
Qed.

Lemma outputs_loop tr : Forall loopEvent tr -> Forall redraw (outputs tr).
Proof.
  unfold outputs. induction 1 as [| ev tr Hev _ IH]; [constructor |].
  cbn. destruct ev; cbn in Hev |- *; try exact IH; try contradiction;
    constructor; cbn; auto.
Qed.

(** X7. What Run hands to the engine for the terminal, in order.
    Nothing when it returns before the read.  Otherwise first the write
    of the code that hides the cursor; then, during the read, redraws
    of the prompt line only, by SetPrompt and Refresh, from the
    listener and the key filter, which never call Write; then nothing
    more when the read returns an error, and the writes of the final
    line, of a line feed and of the code that shows the cursor when it
    returns none. *)
Theorem run_terminal_writes (p : Prompt) (h : Heap) (w : World) :
  match readReturn p h w with
  | None => outputs (rr_trace (Run p h w)) = []
  | Some ((_, e), st) =>
      ∃ loop,
        Forall redraw loop
        ∧ outputs (trace st) = EvWrite hideCursor :: loop
        ∧ outputs (rr_trace (Run p h w))
          = (EvWrite hideCursor :: loop
             ++ match e with
                | Some _ => []
                | None =>
                    [EvWrite
                       (finalLine p (rr_heap (Run p h w) !!! tplsOf p h) (cur st));
                     EvWrite newline; EvWrite showCursor]
                end)%list
  end.
Proof.
  destruct (Run_trace p h w) as (tr & Htr & H).
  pose proof (outputs_parse _ Htr) as Hw.
  destruct (readReturn p h w) as [[[line e] st] |].
  - destruct H as (c & p1 & T & st0 & Hst0 & _ & HT & Hread & ->).
    destruct (ReadLine_trace p1 T (keys w) st0) as (evs & Hevs & Floop).
    rewrite Hread in Hevs. cbn in Hevs. rewrite Hevs, Hst0. cbn [trace snd].
    exists (outputs evs). split; [apply outputs_loop, Floop |].
    rewrite !outputs_app, Hw, <- HT. split; [reflexivity |].
    destruct e; cbn; [rewrite app_nil_r |]; reflexivity.
  - destruct H as [-> | (c & ->)]; [exact Hw |].
    rewrite outputs_app, Hw. reflexivity.
Qed.

Lemma readLoop_lazy_validations p T script :
  LazyValidation p = true ->
  ∀ st, ∃ evs,
    trace (readLoop p T script st).2 = (trace st ++ evs)%list
    ∧ (length (validations evs) <= submits script)%nat.
Proof.
  intros Hlazy. induction script as [| i script IH]; intros st.
  - exists []. cbn. rewrite app_nil_r. auto.
  - destruct i as [r line pos | e]; cbn [readLoop submits].
    + destruct (isSubmit r) eqn:Hs.
      * rewrite (filter_submit p T r st Hs). cbn zeta.
        destruct (validFn p (Get (cur st))); cbn [negb].
        -- match goal with |- context [readLoop p T script ?s] =>
             destruct (IH s) as (evs & Htr & Hlen) end.
           eexists. rewrite Htr. cbn [trace]. rewrite <- app_assoc.
           split; [reflexivity |]. rewrite validations_app. cbn. lia.
        -- rewrite Hs. eexists. split; [reflexivity |]. cbn. lia.
      * rewrite (filter_nonSubmit p T r st Hs). cbn [negb]. rewrite Hs.
        rewrite (listen_lazy p T line pos r st Hlazy).
        match goal with |- context [readLoop p T script ?s] =>
          destruct (IH s) as (evs & Htr & Hlen) end.
        eexists. rewrite Htr. cbn [trace]. rewrite <- app_assoc.
        split; [reflexivity |]. rewrite validations_app. cbn. lia.
    + exists []. cbn. rewrite app_nil_r. split; [reflexivity | lia].
Qed.

(** X8. With lazy validation a run calls the validator only on Enter
    and Ctrl-J: at most once for each such key read, and on no other
    occasion. *)
Theorem lazy_run_validates_on_enter_only
    (p : Prompt) (h : Heap) (w : World) :
  LazyValidation p = true ->
  (length (validations (rr_trace (Run p h w))) <= submits (keys w))%nat.
Proof.
  intros Hlazy. destruct (Run_trace p h w) as (tr & Htr & H).
  pose proof (validations_none _ _ parse_no_validate Htr) as Hv.
  destruct (readReturn p h w) as [[rd st] |].
  - destruct H as (c & p1 & T & st0 & Hst0 & Hp1 & _ & Hread & ->).
    assert (Hl1 : LazyValidation p1 = true) by (rewrite Hp1; exact Hlazy).
    unfold ReadLine in Hread.
    rewrite (listen_lazy p1 T [] 0 0 st0 Hl1) in Hread.
    match type of Hread with readLoop p1 T _ ?s = _ =>
      destruct (readLoop_lazy_validations p1 T (keys w) Hl1 s)
        as (evs & Hevs & Hlen) end.
    rewrite Hread in Hevs. cbn [snd trace] in Hevs. rewrite Hevs, Hst0.
    cbn [trace]. rewrite !validations_app, Hv.
    destruct rd as [line [e |]]; cbn; rewrite ?app_nil_r; cbn; lia.
  - destruct H as [-> | (c & ->)]; [rewrite Hv; cbn; lia |].
    rewrite validations_app, Hv. cbn. lia.
Qed.

(** ** Early returns and errors *)

(** What Run returns when it returns before the read. *)
Lemma Run_early p h w :
  readReturn p h w = None ->
  rr_value (Run p h w) = ""
  ∧ rr_err (Run p h w)
    = match (prepareTemplates p (h, [])).1 with
      | inl e => Some e
      | inr _ => new_err w
      end
  ∧ match (prepareTemplates p (h, [])).1 with
    | inl _ => True
    | inr _ => new_err w ≠ None
    end.
Proof.
  unfold readReturn, Run, startRun.
  destruct (prepareTemplates p (h, [])) as [[e | p'] [h' tr]] eqn:Hprep;
    cbn [fst]; [auto |].
  destruct (prepareTemplates_ok _ _ _ _ Hprep) as (Hp' & _).
  destruct (new_err w); [cbn; intros _; repeat split; discriminate |].
  rewrite Hp'. discriminate.
Qed.

(** X9. When the engine cannot be built, Run returns the empty string
    and the error of the construction as it is, without the mapping
    applied to the errors of the read; nothing is written, the
    validator is not called, and the templates stay prepared in the
    prompt. *)
Theorem engine_construction_error_is_returned
    (p : Prompt) (h : Heap) (w : World) (e : error) :
  templatesParse p h -> new_err w = Some e ->
  rr_value (Run p h w) = ""
  ∧ rr_err (Run p h w) = Some e
  ∧ writes (rr_trace (Run p h w)) = []
  ∧ validations (rr_trace (Run p h w)) = []
  ∧ Templates (rr_prompt (Run p h w)) = Some (tplsOf p h).
Proof.
  intros Hparse Hnew.
  destruct (prepared_complete p h [] Hparse) as (p' & [h1 tr] & Hp).
  destruct (prepareTemplates_ok _ _ _ _ Hp) as (Hp' & (evs & Htr & _ & Hevs) & _).
  cbn in Hp', Htr. subst tr.
  assert (HR : Run p h w
               = mkResult "" (Some e) p' h1 (evs ++ [EvNewEngine (config p')]) false)
    by (unfold Run, startRun; rewrite Hp, Hnew; reflexivity).
  rewrite HR. cbn [rr_value rr_err rr_trace rr_prompt].
  rewrite writes_app, validations_app,
    (writes_none _ _ parse_no_write Hevs),
    (validations_none _ _ parse_no_validate Hevs), Hp'.
  auto.
Qed.

(** X10. Run never dereferences a nil Templates pointer: prepareTemplates
    has stored a template set in the prompt before the listener reads
    it. *)
Theorem run_never_dereferences_nil (p : Prompt) (h : Heap) (w : World) :
  rr_panic (Run p h w) = false
  ∧ ∀ rd st, readReturn p h w = Some (rd, st) ->
      Templates (rr_prompt (Run p h w)) = Some (tplsOf p h).
Proof.
  split; [apply Run_leaves |].
  intros rd st H. destruct (Run_leaves p h w) as (_ & -> & _).
  apply readReturn_inv in H as (p1 & h1 & T & st0 & Hs & _ & _).
  pose proof Hs as Hs'. apply startRun_inr in Hs' as (tr & -> & _).
  apply startRun_prompt in Hs as (-> & _). reflexivity.
Qed.

(** X11. An error of the read other than readline.ErrInterrupt and
    io.EOF is returned as it is, unless its message is the text
    Interrupt, in which case Run returns ErrInterrupt. *)
Theorem other_read_errors_pass_through
    (p : Prompt) (h : Heap) (w : World)
    (line : list rune) (e : error) (st : RunState) :
  readReturn p h w = Some ((line, Some e), st) ->
  e ≠ readline_ErrInterrupt -> e ≠ io_EOF ->
  (Error e ≠ "Interrupt" -> rr_err (Run p h w) = Some e)
  ∧ (Error e = "Interrupt" -> rr_err (Run p h w) = Some ErrInterrupt).
Proof.
  intros H H1 H2. destruct (Run_of_read _ _ _ _ _ H) as (_ & ->). cbn [snd].
  unfold engineError.
  assert (Hm : match e with
               | readline_ErrInterrupt => ErrInterrupt
               | io_EOF => ErrEOF
               | _ => e
               end = e) by (destruct e; congruence).
  rewrite Hm.
  destruct (String.eqb_spec (Error e) "Interrupt"); split; intros H3;
    first [reflexivity | contradiction].
Qed.

(** X12. The confirm rule on the strings as given: a confirm-mode run
    whose read completed returns a nil error exactly when the default is
    y or Y and the answer is neither n nor N, or the default is anything
    else and the answer is y or Y; otherwise it returns ErrAbort.  A
    default such as yes counts as a default other than y. *)
Theorem confirm_answers_in_any_case
    (p : Prompt) (h : Heap) (w : World) (line : list rune) (st : RunState) :
  IsConfirm p = true ->
  readReturn p h w = Some ((line, None), st) ->
  let A := rr_value (Run p h w) in
  (rr_err (Run p h w) = None
   ↔ (isYes (Default p) ∧ ¬ isNo A) ∨ (¬ isYes (Default p) ∧ isYes A))
  ∧ (rr_err (Run p h w) = None ∨ rr_err (Run p h w) = Some ErrAbort).
Proof.
  intros Hc H A. subst A.
  destruct (Run_of_read _ _ _ _ _ H) as (-> & ->). cbn [snd]. rewrite Hc.
  cbn [andb]. unfold isYes, isNo.
  rewrite <- !ToLower_y, <- ToLower_n.
  pose proof (confirmAborts_spec (ToLower (Default p)) (ToLower (Get (cur st))))
    as Hspec. unfold accepts in Hspec.
  destruct (confirmAborts _ _); split; auto.
  - split; [discriminate |]. intros Ha. apply Hspec in Ha. discriminate.
  - split; [intros _; apply Hspec; reflexivity | reflexivity].
Qed.

(** ** The template set after a run *)

Ltac failed_at :=
  split; [reflexivity |]; split; [eassumption | reflexivity].

Ltac failed_somewhere :=
  first
    [ solve [eexists [], _, _; failed_at]
    | solve [eexists [_], _, _; failed_at]
    | solve [eexists [_; _], _, _; failed_at]
    | solve [eexists [_; _; _], _, _; failed_at]
    | solve [eexists [_; _; _; _], _, _; failed_at]
    | solve [eexists [_; _; _; _; _], _, _; failed_at] ].

(** The template set a failed preparation leaves: the function map is
    filled, the sources up to the one that fails are the ones parsed,
    the sources after it and the one of Prompt and Confirm that is not
    read are as given. *)
Lemma prepareT_failed p l G :
  match prepareT p l G with
  | (inl e, T', _) =>
      T_FuncMap T' = usedFuncMap G
      ∧ unusedField p T' = unusedField p G
      ∧ ∃ pre src post,
          slotSources p G = (pre ++ src :: post)%list
          ∧ Parse (usedFuncMap G) src = inl e
          ∧ map (fun f => f T') (slotFields p)
            = (pre ++ src
                 :: drop (S (length pre)) (map (fun f => f G) (slotFields p)))%list
  | (inr _, _, _) => True
  end.
Proof.
  destruct G as [sP sC sV sI sS sU sE fmo cp cv ci ce cs cu].
  unfold prepareT, compileAllT, bindT, compileT, retT, slotSources, slotFields,
    unusedField, usedFuncMap, fillFuncMap.
  cbn.
  destruct fmo; destruct (IsConfirm p); cbn;
    repeat parse_step; try exact I;
    (split; [reflexivity |]; split; [reflexivity |]; failed_somewhere).
Qed.

Lemma prepared_failure p h tr e s' :
  prepareTemplates p (h, tr) = (inl e, s') ->
  let G := givenTemplates p h in
  let T' := s'.1 !!! tplsOf p h in
  T_FuncMap T' = usedFuncMap G
  ∧ unusedField p T' = unusedField p G
  ∧ ∃ pre src post,
      slotSources p G = (pre ++ src :: post)%list
      ∧ Parse (usedFuncMap G) src = inl e
      ∧ map (fun f => f T') (slotFields p)
        = (pre ++ src
             :: drop (S (length pre)) (map (fun f => f G) (slotFields p)))%list.
Proof.
  intros H G T'. subst T'.
  destruct (acts_prepareTemplates p (h, tr)) as (H1 & H2 & _).
  cbn [fst snd] in H1, H2. fold G in H1, H2. rewrite H in H1, H2.
  cbn [fst snd] in H1, H2.
  pose proof (prepareT_failed p (tplsOf p h) G) as Hspec.
  destruct (prepareT p (tplsOf p h) G) as [[[e' | p'] T'] evs];
    cbn [fst snd] in H1, H2; [| discriminate].
  injection H1 as <-. rewrite H2. exact Hspec.
Qed.

(** C9, as the code has it.  Run leaves every field of the prompt but
    Templates as it was.  A non-nil Templates keeps its pointer; a nil
    one is set to a new template set once the six templates compile.
    In the store only the template set of the run is written, and there
    a non-empty source and a non-nil FuncMap are kept.  When the six
    templates compile, the set ends with the six sources parsed, each
    the given one or the built-in one when that was empty, with the
    other of Prompt and Confirm as given, with the function map given
    or else the package's, and with the six compiled templates.  When a
    template fails to parse, Run returns its error; the function map
    is filled all the same, the sources up to the failing one are the
    ones parsed, and the sources after it and the other of Prompt and
    Confirm are as given. *)
Theorem run_keeps_configuration_but_templates
    (p : Prompt) (h : Heap) (w : World) :
  let r := Run p h w in
  let q := rr_prompt r in
  let l := tplsOf p h in
  let G := givenTemplates p h in
  let fm := usedFuncMap G in
  (Label q = Label p ∧ Default q = Default p ∧ AllowEdit q = AllowEdit p
   ∧ Validate q = Validate p ∧ Mask q = Mask p
   ∧ LazyValidation q = LazyValidation p ∧ IsConfirm q = IsConfirm p
   ∧ IsVimMode q = IsVimMode p ∧ Pointer q = Pointer p
   ∧ Stdin q = Stdin p ∧ Stdout q = Stdout p)
  ∧ Templates q
    = match (prepareTemplates p (h, [])).1 with
      | inl _ => Templates p
      | inr _ => Some l
      end
  ∧ (∀ l', l' ≠ l -> rr_heap r !! l' = h !! l')
  ∧ match Templates p with
    | Some l0 => l = l0 ∧ Templates q = Some l0
                 ∧ keeps (h !!! l0) (rr_heap r !!! l0)
    | None => h !! l = None
    end
  ∧ match (prepareTemplates p (h, [])).1 with
    | inr _ =>
        ∃ tp tv tu ti te ts,
          Forall2 (fun s t => Parse fm s = inr t) (slotSources p G)
            [tp; tv; tu; ti; te; ts]
          ∧ rr_heap r !!! l = preparedTemplates p G tp tv tu ti te ts
    | inl e =>
        rr_err r = Some e
        ∧ T_FuncMap (rr_heap r !!! l) = fm
        ∧ unusedField p (rr_heap r !!! l) = unusedField p G
        ∧ ∃ pre src post,
            slotSources p G = (pre ++ src :: post)%list
            ∧ Parse fm src = inl e
            ∧ map (fun f => f (rr_heap r !!! l)) (slotFields p)
              = (pre ++ src
                   :: drop (S (length pre))
                        (map (fun f => f G) (slotFields p)))%list
    end.
Proof.
  intros r q l G fm.
  destruct (Run_keeps p h w) as (Hfields & Htpls & Hframe & Hkeep).
  split; [exact Hfields |]. split; [exact Htpls |].
  split; [exact Hframe |]. split; [exact Hkeep |].
  subst r. destruct (Run_leaves p h w) as (Hh & _). rewrite Hh.
  destruct (prepareTemplates p (h, [])) as [[e | p'] s'] eqn:Hprep;
    cbn [fst snd].
  - split; [| exact (prepared_failure p h [] e s' Hprep)].
    assert (Hnone : readReturn p h w = None)
      by (unfold readReturn, startRun; rewrite Hprep; destruct s'; reflexivity).
    destruct (Run_early p h w Hnone) as (_ & -> & _).
    rewrite Hprep. reflexivity.
  - destruct (prepared_success p h [] p' s' Hprep) as (_ & _ & Hcell).
    exact Hcell.
Qed.

(** ** What only the display depends on *)

Lemma compileAll_congr p q l s :
  IsConfirm q = IsConfirm p -> Default q = Default p ->
  compileAll q l s
  = onResult (fun _ => set_Templates (Some l) q) (compileAll p l s).
Proof.
  intros Hc HD. unfold compileAll, compileRest. rewrite Hc.
  assert (Hd : defaultConfirm q = defaultConfirm p)
    by (unfold defaultConfirm, confirmHint; rewrite HD; reflexivity).
  rewrite Hd. unfold bind, onResult. destruct (IsConfirm p);
    repeat match goal with
           | |- context [compile ?a ?b ?c ?d ?e ?s] =>
               destruct (compile a b c d e s) as [[? | ?] ?]; [reflexivity |]
           end;
    reflexivity.
Qed.

Lemma prepareTemplates_congr p q s :
  sameInputs p q ->
  prepareTemplates q s
  = onResult (fun _ => set_Templates (Some (tplsOf p s.1)) q)
      (prepareTemplates p s).
Proof.
  intros (HD & _ & _ & HT & Hc & _). rewrite !prepareTemplates_eq.
  unfold tplsOf, allocated. rewrite HT.
  apply compileAll_congr; assumption.
Qed.

Lemma listen_calls p T input pos key st :
  validations (trace (listen p T input pos key st).2)
  = (validations (trace st)
     ++ if LazyValidation p then []
        else [Get (Listen (cur st) input pos key).2])%list.
Proof.
  unfold listen, call_validFn, emit, set_cur.
  destruct (Listen (cur st) input pos key) as [[[l z] k] c].
  cbn. destruct (LazyValidation p); cbn;
    [| destruct (validFn p (Get c)); cbn];
    unfold validations; rewrite !flat_map_app; cbn;
    rewrite ?app_nil_r; reflexivity.
Qed.

(** The calls a read makes on the validator depend on the cursor it
    starts from, on the validator and on the lazy-validation flag
    only. *)
Lemma readLoop_calls p q T U script :
  (∀ x, validFn q x = validFn p x) ->
  LazyValidation q = LazyValidation p ->
  ∀ st st', cur st' = cur st ->
    validations (trace st') = validations (trace st) ->
    validations (trace (readLoop q U script st').2)
    = validations (trace (readLoop p T script st).2).
Proof.
  intros Hv HL. induction script as [| i script IH]; intros st st' Hc Ht.
  - exact Ht.
  - destruct i as [r line pos | e]; cbn [readLoop]; [| exact Ht].
    destruct (isSubmit r) eqn:Hs.
    + rewrite (filter_submit p T r st Hs), (filter_submit q U r st' Hs).
      cbn zeta. rewrite Hc, Hv.
      destruct (validFn p (Get (cur st))); cbn [negb].
      * apply IH; [reflexivity |]. cbn [trace].
        rewrite !validations_app, Ht. reflexivity.
      * rewrite Hs. cbn [snd trace]. rewrite !validations_app, Ht. reflexivity.
    + rewrite (filter_nonSubmit p T r st Hs), (filter_nonSubmit q U r st' Hs).
      cbn [negb]. rewrite Hs.
      pose proof (listen_cur p T line pos r st) as Hp.
      pose proof (listen_cur q U line pos r st') as Hq.
      pose proof (listen_calls p T line pos r st) as Kp.
      pose proof (listen_calls q U line pos r st') as Kq.
      destruct (listen p T line pos r st) as [o1 st1].
      destruct (listen q U line pos r st') as [o2 st2].
      cbn [snd] in Hp, Hq, Kp, Kq.
      apply IH; [rewrite Hp, Hq, Hc; reflexivity |].
      rewrite Kp, Kq, HL, Hc, Ht. reflexivity.
Qed.

Lemma ReadLine_calls p q T U script st st' :
  (∀ x, validFn q x = validFn p x) ->
  LazyValidation q = LazyValidation p ->
  cur st' = cur st ->
  validations (trace st') = validations (trace st) ->
  validations (trace (ReadLine q U script st').2)
  = validations (trace (ReadLine p T script st).2).
Proof.
  intros Hv HL Hc Ht. unfold ReadLine.
  pose proof (listen_cur p T [] 0 0 st) as Hp.
  pose proof (listen_cur q U [] 0 0 st') as Hq.
  pose proof (listen_calls p T [] 0 0 st) as Kp.
  pose proof (listen_calls q U [] 0 0 st') as Kq.
  destruct (listen p T [] 0 0 st) as [o1 st1].
  destruct (listen q U [] 0 0 st') as [o2 st2].
  cbn [snd] in Hp, Hq, Kp, Kq.
  apply readLoop_calls; [exact Hv | exact HL | rewrite Hp, Hq, Hc; reflexivity |].
  rewrite Kp, Kq, HL, Hc, Ht. reflexivity.
Qed.

Lemma readReturn_congr p q h w :
  sameInputs p q ->
  match readReturn p h w, readReturn q h w with
  | Some (rd, st), Some (rd', st') =>
      rd' = rd ∧ cur st' = cur st
      ∧ validations (trace st') = validations (trace st)
  | None, None => True
  | _, _ => False
  end.
Proof.
  intros Hsame. pose proof Hsame as (HD & HA & HV & HT & Hc & HP & HL).
  unfold readReturn, startRun.
  rewrite (prepareTemplates_congr p q (h, []) Hsame).
  destruct (prepareTemplates p (h, [])) as [[e | p'] [h' tr]] eqn:Hprep;
    cbn [onResult fst]; [exact I |].
  destruct (prepareTemplates_ok _ _ _ _ Hprep) as (Hp' & _). cbn in Hp'.
  destruct (new_err w); [exact I |]. rewrite Hp'. cbn [set_Templates Templates deref].
  match goal with
  | |- context [ReadLine ?p1 ?T ?k ?s1] =>
      match goal with
      | |- context [ReadLine ?q1 ?U k ?s2] =>
          tryif constr_eq p1 q1 then fail else
            (assert (Hv : ∀ x, validFn q1 x = validFn p1 x)
               by (intros x; unfold validFn; cbn; rewrite HV; reflexivity);
             assert (Hcur : cur s2 = cur s1)
               by (cbn; unfold initialCursor, eraseDefault, initialInput; cbn;
                   rewrite HD, HA, Hc, HP; reflexivity);
             destruct (ReadLine_cur p1 q1 T U k s1 s2 Hv Hcur) as (H1 & H2);
             pose proof (ReadLine_calls p1 q1 T U k s1 s2 Hv HL Hcur) as H3;
             destruct (ReadLine p1 T k s1), (ReadLine q1 U k s2);
             split; [exact H1 |]; split; [exact H2 |]; apply H3;
             cbn [trace]; rewrite !validations_app; reflexivity)
      end
  end.
Qed.

Lemma Run_calls p h w :
  validations (rr_trace (Run p h w))
  = match readReturn p h w with
    | Some (_, st) => validations (trace st)
    | None => []
    end.
Proof.
  destruct (Run_trace p h w) as (tr & Htr & H).
  pose proof (validations_none _ _ parse_no_validate Htr) as Hn.
  destruct (readReturn p h w) as [[rd st] |].
  - destruct H as (c & p1 & T & st0 & _ & _ & _ & _ & ->).
    rewrite validations_app. destruct rd.2; cbn; apply app_nil_r.
  - destruct H as [-> | (c & ->)]; [exact Hn |].
    rewrite validations_app, Hn. reflexivity.
Qed.

(** X13. The label, the mask, the vi-mode flag and the two stream
    fields do not enter what Run returns nor what it asks of the
    validator: when the engine is built alike and reads the same keys,
    two prompts that differ in nothing else return the same value and
    the same error, leave the same store, and call the validator on the
    same values in the same order. *)
Theorem display_fields_do_not_change_the_result
    (p q : Prompt) (h : Heap) (w : World) :
  sameInputs p q ->
  rr_value (Run q h w) = rr_value (Run p h w)
  ∧ rr_err (Run q h w) = rr_err (Run p h w)
  ∧ rr_heap (Run q h w) = rr_heap (Run p h w)
  ∧ validations (rr_trace (Run q h w)) = validations (rr_trace (Run p h w)).
Proof.
  intros Hsame. pose proof Hsame as (HD & _ & _ & _ & Hc & _).
  pose proof (prepareTemplates_congr p q (h, []) Hsame) as Hprep.
  assert (Hheap : rr_heap (Run q h w) = rr_heap (Run p h w)).
  { destruct (Run_leaves p h w) as (-> & _), (Run_leaves q h w) as (-> & _).
    rewrite Hprep. destruct (prepareTemplates p (h, [])) as [[? | ?] ?]; reflexivity. }
  cut (rr_value (Run q h w) = rr_value (Run p h w)
       ∧ rr_err (Run q h w) = rr_err (Run p h w)
       ∧ validations (rr_trace (Run q h w)) = validations (rr_trace (Run p h w)));
    [tauto |].
  rewrite !Run_calls.
  pose proof (readReturn_congr p q h w Hsame) as HR.
  destruct (readReturn p h w) as [[rd st] |] eqn:Hp;
    destruct (readReturn q h w) as [[rd' st'] |] eqn:Hq; try contradiction.
  - destruct HR as (-> & Hcur & Hcalls).
    destruct (Run_of_read _ _ _ _ _ Hp) as (-> & ->).
    destruct (Run_of_read _ _ _ _ _ Hq) as (-> & ->).
    rewrite Hcur, HD, Hc. auto.
  - destruct (Run_early _ _ _ Hp) as (-> & -> & _).
    destruct (Run_early _ _ _ Hq) as (-> & -> & _).
    rewrite Hprep. destruct (prepareTemplates p (h, [])) as [[? | ?] ?]; auto.
Qed.


Lemma parsed_parses fm (srcs : list string) (tpls : list Template) :
  Forall2 (fun s t => Parse fm s = inr t) srcs tpls -> Forall (parses fm) srcs.
Proof.
  intros Hall. induction Hall; constructor; [eexists; eassumption | assumption].
Qed.

Lemma prepareTemplates_inl p s e :
  errOf (prepareTemplates p s).1 = Some e ->
  prepareTemplates p s = (inl e, (prepareTemplates p s).2).
Proof.
  destruct (prepareTemplates p s) as [[e' | p'] s']; cbn; [| discriminate].
  intros [= ->]. reflexivity.
Qed.

Lemma prepareTemplates_inr p h tr :
  errOf (prepareTemplates p (h, tr)).1 = None ->
  prepareTemplates p (h, tr)
  = (inr (set_Templates (Some (tplsOf p h)) p), (prepareTemplates p (h, tr)).2).
Proof.
  destruct (prepareTemplates p (h, tr)) as [[e' | p'] s'] eqn:Hp; cbn;
    [discriminate |].
  intros _. destruct (prepared_success p h tr p' s' Hp) as (-> & _).
  reflexivity.
Qed.

Lemma templatesParse_run p h :
  errOf (prepareTemplates p (h, [])).1 = None -> templatesParse p h.
Proof.
  intros H. apply prepareTemplates_inr in H.
  destruct (prepared_success p h [] _ _ H)
    as (_ & _ & tp & tv & tu & ti & te & ts & Hall & _).
  eapply parsed_parses, Hall.
Qed.

End More.

(** * The model at work *)

Lemma readReturn_readOf (p : Prompt) (w : World) (e : option error) :
  returned p w = true ->
  (readOf p w).1.2 = e ->
  readReturn p ∅ w = Some (((readOf p w).1.1, e), (readOf p w).2).
Proof.
  unfold returned, readOf.
  destruct (readReturn p ∅ w) as [[[line e'] st] |]; [| discriminate].
  cbn. intros _ ->. reflexivity.
Qed.

Lemma enter_validates_and_gates_witness :
  (CharEnter = CharEnter ∨ CharEnter = CharCtrlJ)
  ∧ filterInputRune lazyPrompt someTemplates CharEnter emptyState
    = ((CharEnter, false),
       mkState (E := Demo.demo) (Demo.c_new "" tt false) (Some (ErrOther "empty"))
         [EvValidate ""; EvSetPrompt "E[empty]"]).
Proof.
  split; [left; reflexivity |].
  pose proof (enter_validates_and_gates lazyPrompt someTemplates CharEnter
                [] 0 [] emptyState (or_introl eq_refl)) as H.
  cbn in H. destruct H as [_ [H _]]. exact H.
Defined.

Lemma confirm_acceptance_rule_witness :
  IsConfirm (Demo.confirm "N") = true
  ∧ readReturn (Demo.confirm "N") ∅ sayYes = Some ((yesRead.1.1, None), yesRead.2)
  ∧ rr_value (Run (Demo.confirm "N") ∅ sayYes) = "Y"
  ∧ rr_err (Run (Demo.confirm "N") ∅ sayYes) = None.
Proof.
  assert (Hread : readReturn (Demo.confirm "N") ∅ sayYes
                  = Some ((yesRead.1.1, None), yesRead.2))
    by (apply readReturn_readOf; vm_compute; reflexivity).
  split; [reflexivity |]. split; [exact Hread |].
  destruct (confirm_acceptance_rule (Demo.confirm "N") ∅ sayYes _ _
              eq_refl Hread) as (T & _ & Hv & _ & Hacc & _).
  split; [exact Hv |].
  apply Hacc. right. split; [discriminate | reflexivity].
Defined.

Lemma lazy_listener_renders_unvalidated_witness :
  LazyValidation lazyPrompt = true
  ∧ Forall nonSubmit [Demo.type "a"; Demo.type "b"]
  ∧ ∃ evs,
      trace (ReadLine lazyPrompt someTemplates
               [Demo.type "a"; Demo.type "b"] emptyState).2 = evs
      ∧ Forall (unvalidatedEvent lazyPrompt someTemplates) evs.
Proof.
  assert (Hs : Forall nonSubmit [Demo.type "a"; Demo.type "b"])
    by (repeat constructor).
  split; [reflexivity |]. split; [exact Hs |].
  destruct (lazy_listener_renders_unvalidated lazyPrompt someTemplates
              [Demo.type "a"; Demo.type "b"] emptyState eq_refl Hs)
    as (_ & (evs & Htr & Hevs) & _).
  exists evs. split; [exact Htr | exact Hevs].
Defined.

Lemma eager_listener_selects_template_witness :
  LazyValidation eagerPrompt = false
  ∧ listen eagerPrompt someTemplates [97] 1 97 emptyState
    = (([], 0, true),
       mkState (E := Demo.demo) (Demo.mkCursor [97] 1 false) None
         [EvValidate "a"; EvSetPrompt "V[Name]a"; EvRefresh])
  ∧ listen eagerPrompt someTemplates [] 0 0 emptyState
    = (([], 0, true),
       mkState (E := Demo.demo) (Demo.mkCursor [] 0 false) None
         [EvValidate ""; EvSetPrompt "I[Name]"; EvRefresh])
  ∧ listen (Demo.confirm "N") someTemplates [121] 1 121 emptyState
    = (([], 0, true),
       mkState (E := Demo.demo) (Demo.mkCursor [121] 1 false) None
         [EvValidate "y"; EvSetPrompt "P[Sure]y"; EvRefresh])
  ∧ listen (set_Validate (Some Demo.nonEmpty) (Demo.confirm "N"))
      someTemplates [] 0 0 emptyState
    = (([], 0, true),
       mkState (E := Demo.demo) (Demo.mkCursor [] 0 false) None
         [EvValidate ""; EvSetPrompt "I[Sure]"; EvRefresh]).
Proof.
  split; [reflexivity |].
  split; [exact (eager_listener_selects_template eagerPrompt someTemplates
                   [97] 1 97 emptyState eq_refl) |].
  split; [exact (eager_listener_selects_template eagerPrompt someTemplates
                   [] 0 0 emptyState eq_refl) |].
  split; [exact (eager_listener_selects_template (Demo.confirm "N")
                   someTemplates [121] 1 121 emptyState eq_refl) |].
  exact (eager_listener_selects_template
           (set_Validate (Some Demo.nonEmpty) (Demo.confirm "N"))
           someTemplates [] 0 0 emptyState eq_refl).
Defined.

Lemma confirm_abort_returns_answer_witness :
  IsConfirm (Demo.confirm "Y") = true
  ∧ readReturn (Demo.confirm "Y") ∅ sayNo = Some ((noRead.1.1, None), noRead.2)
  ∧ rr_err (Run (Demo.confirm "Y") ∅ sayNo) = Some ErrAbort
  ∧ rr_value (Run (Demo.confirm "Y") ∅ sayNo) = "n".
Proof.
  assert (Hread : readReturn (Demo.confirm "Y") ∅ sayNo
                  = Some ((noRead.1.1, None), noRead.2))
    by (apply readReturn_readOf; vm_compute; reflexivity).
  split; [reflexivity |]. split; [exact Hread |].
  exact (confirm_abort_returns_answer (Demo.confirm "Y") ∅ sayNo _ _
           eq_refl Hread eq_refl).
Defined.

(** C5 fails as stated: with the default Y and the answer n the run
    aborts, and the value returned beside ErrAbort is the n typed. *)
Lemma confirm_abort_value_not_empty :
  IsConfirm (Demo.confirm "Y") = true
  ∧ rr_err (Run (Demo.confirm "Y") ∅ sayNo) = Some ErrAbort
  ∧ rr_value (Run (Demo.confirm "Y") ∅ sayNo) ≠ "".
Proof.
  split; [reflexivity |]. split; [vm_compute; reflexivity |].
  vm_compute. discriminate.
Qed.

Lemma engine_error_returns_empty_witness :
  readReturn Demo.prompt0 ∅ endOfInput
  = Some ((eofRead.1.1, Some io_EOF), eofRead.2)
  ∧ Get (cur eofRead.2) = "a"
  ∧ rr_value (Run Demo.prompt0 ∅ endOfInput) = ""
  ∧ rr_err (Run Demo.prompt0 ∅ endOfInput) = Some ErrEOF.
Proof.
  assert (Hread : readReturn Demo.prompt0 ∅ endOfInput
                  = Some ((eofRead.1.1, Some io_EOF), eofRead.2))
    by (apply readReturn_readOf; vm_compute; reflexivity).
  split; [exact Hread |]. split; [vm_compute; reflexivity |].
  destruct (engine_error_returns_empty Demo.prompt0 ∅ endOfInput _ _ _ Hread)
    as (Hv & _ & _ & He).
  split; [exact Hv |]. apply He; [reflexivity | discriminate].
Defined.

Lemma engine_not_closed_on_read_error_witness :
  readReturn Demo.prompt0 ∅ interrupted
  = Some ((intRead.1.1, Some readline_ErrInterrupt), intRead.2)
  ∧ rr_err (Run Demo.prompt0 ∅ interrupted) = Some ErrInterrupt
  ∧ (∃ c, EvNewEngine c ∈ rr_trace (Run Demo.prompt0 ∅ interrupted))
  ∧ EvClose ∉ rr_trace (Run Demo.prompt0 ∅ interrupted).
Proof.
  assert (Hread : readReturn Demo.prompt0 ∅ interrupted
                  = Some ((intRead.1.1, Some readline_ErrInterrupt), intRead.2))
    by (apply readReturn_readOf; vm_compute; reflexivity).
  split; [exact Hread |].
  destruct (engine_not_closed_on_read_error Demo.prompt0 ∅ interrupted _ _ _
              Hread) as (Hnew & Herr & Hclose).
  split; [exact Herr |]. split; [exact Hnew | exact Hclose].
Defined.

(** C9 fails as stated: a prompt run with a nil Templates field comes
    back with a non-nil one, and a template set given with empty
    sources comes back with the built-in sources written into it. *)
Lemma run_writes_templates :
  Templates Demo.prompt0 = None
  ∧ Templates (rr_prompt (Run Demo.prompt0 ∅ sayYes)) = Some 0%nat
  ∧ T_Valid
      (rr_heap (Run (set_Templates (Some 0%nat) Demo.prompt0)
                  {[ 0%nat := zeroTemplates ]} sayYes) !!! 0%nat)
    ≠ T_Valid zeroTemplates.
Proof.
  split; [reflexivity |]. split; [vm_compute; reflexivity |].
  vm_compute. discriminate.
Qed.

Lemma confirm_default_only_selects_witness :
  IsConfirm (Demo.confirm "N") = true
  ∧ defaultYes "no" = defaultYes (Default (Demo.confirm "N"))
  ∧ initialCursor (Demo.confirm "N") = Demo.c_new "" tt false
  ∧ rr_value (Run (Demo.confirm "no") ∅ sayYes)
    = rr_value (Run (Demo.confirm "N") ∅ sayYes)
  ∧ rr_trace (Run (Demo.confirm "no") ∅ sayYes)
    = rr_trace (Run (Demo.confirm "N") ∅ sayYes).
Proof.
  destruct (confirm_default_only_selects (Demo.confirm "N") ∅ sayYes "no"
              eq_refl) as (Hcur & _ & _ & Hsame).
  destruct (Hsame eq_refl) as (Hv & _ & _ & Htr & _).
  split; [reflexivity |]. split; [reflexivity |].
  split; [exact Hcur |]. split; [exact Hv | exact Htr].
Defined.

Lemma prepareTemplates_first_failure_witness :
  prepareTemplates badPrompt (badHeap, [])
  = (inl (ErrOther "template: unexpected {{end}}"),
     (prepareTemplates badPrompt (badHeap, [])).2)
  ∧ T_FuncMap ((prepareTemplates badPrompt (badHeap, [])).2.1 !!! 0%nat)
    = Some tt
  ∧ ∃ pre src post,
      slotSources badPrompt badTemplates = (pre ++ src :: post)%list
      ∧ Forall (parses (Some tt)) pre
      ∧ Parse (Some tt) src = inl (ErrOther "template: unexpected {{end}}")
      ∧ (prepareTemplates badPrompt (badHeap, [])).2.2
        = map (EvParse (Some tt)) (pre ++ [src])%list.
Proof.
  assert (H : prepareTemplates badPrompt (badHeap, [])
              = (inl (ErrOther "template: unexpected {{end}}"),
                 (prepareTemplates badPrompt (badHeap, [])).2))
    by (apply prepareTemplates_inl; vm_compute; reflexivity).
  split; [exact H |].
  exact (prepareTemplates_first_failure badPrompt badHeap [] _ _ H).
Defined.

Lemma prepareTemplates_again_witness :
  prepareTemplates (Demo.confirm "Y") (∅, []) = (inr preparedConfirm, preparedState)
  ∧ ∃ s'',
      prepareTemplates (set_Default "N" preparedConfirm) (preparedState.1, [])
      = (inr (set_Default "N" preparedConfirm), s'')
      ∧ T_Confirm (s''.1 !!! 0%nat) = defaultConfirm (Demo.confirm "Y").
Proof.
  assert (H : prepareTemplates (Demo.confirm "Y") (∅, [])
              = (inr preparedConfirm, preparedState))
    by (apply prepareTemplates_inr; vm_compute; reflexivity).
  split; [exact H |].
  destruct (prepareTemplates_again (Demo.confirm "Y") ∅ [] _ _ "N" [] H)
    as (s'' & H2 & Hcell & _).
  exists s''. split; [exact H2 |].
  change (tplsOf (Demo.confirm "Y") ∅) with 0%nat in Hcell.
  rewrite Hcell. vm_compute. reflexivity.
Defined.

Lemma completed_run_returns_valid_value_witness :
  readReturn lazyPrompt ∅ enterFirst = Some ((typedRead.1.1, None), typedRead.2)
  ∧ rr_value (Run lazyPrompt ∅ enterFirst) = "a"
  ∧ validFn lazyPrompt (rr_value (Run lazyPrompt ∅ enterFirst)) = None
  ∧ rr_err (Run lazyPrompt ∅ enterFirst) = None.
Proof.
  assert (Hread : readReturn lazyPrompt ∅ enterFirst
                  = Some ((typedRead.1.1, None), typedRead.2))
    by (apply readReturn_readOf; vm_compute; reflexivity).
  split; [exact Hread |].
  destruct (completed_run_returns_valid_value lazyPrompt ∅ enterFirst _ _ Hread)
    as (Hv & Hok & Herr).
  split; [rewrite Hv; vm_compute; reflexivity |].
  split; [exact Hok | exact (Herr eq_refl)].
Defined.

Lemma run_returns_typed_value_witness :
  templatesParse eagerPrompt ∅
  ∧ Forall plainKey [Demo.type "a"; Demo.type "b"]
  ∧ rr_value (Run eagerPrompt ∅ typeAB) = "ab"
  ∧ rr_err (Run eagerPrompt ∅ typeAB) = None.
Proof.
  assert (Ht : templatesParse eagerPrompt ∅)
    by (apply templatesParse_run; vm_compute; reflexivity).
  assert (Hk : Forall plainKey [Demo.type "a"; Demo.type "b"])
    by (repeat constructor).
  split; [exact Ht |]. split; [exact Hk |].
  assert (Hv : validFn eagerPrompt
                 (Get (afterKeys (firstCursor eagerPrompt)
                         [Demo.type "a"; Demo.type "b"])) = None)
    by (vm_compute; reflexivity).
  destruct (run_returns_typed_value eagerPrompt ∅ typeAB
              [Demo.type "a"; Demo.type "b"] CharEnter [] 0 [Demo.type "c"]
              Ht eq_refl eq_refl Hk eq_refl Hv) as (Hval & Herr).
  split; [rewrite Hval; vm_compute; reflexivity | exact Herr].
Defined.

Lemma rejected_enter_is_dropped_witness :
  validFn lazyPrompt (Get (afterKeys (firstCursor lazyPrompt) []))
  = Some (ErrOther "empty")
  ∧ rr_value (Run lazyPrompt ∅ enterFirst)
    = rr_value (Run lazyPrompt ∅ (mkWorld None [Demo.type "a"; Demo.enter]))
  ∧ rr_err (Run lazyPrompt ∅ enterFirst)
    = rr_err (Run lazyPrompt ∅ (mkWorld None [Demo.type "a"; Demo.enter])).
Proof.
  assert (Hv : validFn lazyPrompt (Get (afterKeys (firstCursor lazyPrompt) []))
               = Some (ErrOther "empty"))
    by (vm_compute; reflexivity).
  split; [exact Hv |].
  destruct (rejected_enter_is_dropped lazyPrompt ∅ enterFirst
              [] CharEnter [] 0 [Demo.type "a"; Demo.enter] _
              eq_refl (Forall_nil_2 _) eq_refl Hv) as (Hval & Herr & _).
  split; [exact Hval | exact Herr].
Defined.

Lemma lazy_run_validates_on_enter_only_witness :
  LazyValidation lazyPrompt = true
  ∧ (length (validations (rr_trace (Run lazyPrompt ∅ enterFirst))) <= 2)%nat.
Proof.
  split; [reflexivity |].
  exact (lazy_run_validates_on_enter_only lazyPrompt ∅ enterFirst eq_refl).
Defined.

Lemma engine_construction_error_is_returned_witness :
  templatesParse Demo.prompt0 ∅
  ∧ new_err noTerminal = Some (ErrOther "not a terminal")
  ∧ rr_value (Run Demo.prompt0 ∅ noTerminal) = ""
  ∧ rr_err (Run Demo.prompt0 ∅ noTerminal) = Some (ErrOther "not a terminal")
  ∧ writes (rr_trace (Run Demo.prompt0 ∅ noTerminal)) = [].
Proof.
  assert (Ht : templatesParse Demo.prompt0 ∅)
    by (apply templatesParse_run; vm_compute; reflexivity).
  split; [exact Ht |]. split; [reflexivity |].
  destruct (engine_construction_error_is_returned Demo.prompt0 ∅ noTerminal _
              Ht eq_refl) as (Hv & He & Hw & _).
  split; [exact Hv |]. split; [exact He | exact Hw].
Defined.

Lemma other_read_errors_pass_through_witness :
  readReturn Demo.prompt0 ∅ brokenRead
  = Some ((brokenReadOf.1.1, Some (ErrOther "broken pipe")), brokenReadOf.2)
  ∧ rr_err (Run Demo.prompt0 ∅ brokenRead) = Some (ErrOther "broken pipe").
Proof.
  assert (Hread : readReturn Demo.prompt0 ∅ brokenRead
                  = Some ((brokenReadOf.1.1, Some (ErrOther "broken pipe")),
                          brokenReadOf.2))
    by (apply readReturn_readOf; vm_compute; reflexivity).
  split; [exact Hread |].
  destruct (other_read_errors_pass_through Demo.prompt0 ∅ brokenRead _ _ _ Hread)
    as (He & _); [discriminate | discriminate |].
  apply He. cbn. discriminate.
Defined.

Lemma confirm_answers_in_any_case_witness :
  IsConfirm (Demo.confirm "Y") = true
  ∧ readReturn (Demo.confirm "Y") ∅ justEnter
    = Some ((enterRead.1.1, None), enterRead.2)
  ∧ rr_err (Run (Demo.confirm "Y") ∅ justEnter) = None.
Proof.
  assert (Hread : readReturn (Demo.confirm "Y") ∅ justEnter
                  = Some ((enterRead.1.1, None), enterRead.2))
    by (apply readReturn_readOf; vm_compute; reflexivity).
  split; [reflexivity |]. split; [exact Hread |].
  destruct (confirm_answers_in_any_case (Demo.confirm "Y") ∅ justEnter _ _
              eq_refl Hread) as (Hiff & _).
  apply Hiff. left. split; [right; reflexivity |].
  intros [H | H]; vm_compute in H; discriminate.
Defined.

Lemma display_fields_do_not_change_the_result_witness :
  sameInputs lazyPrompt maskedPrompt
  ∧ rr_value (Run maskedPrompt ∅ enterFirst)
    = rr_value (Run lazyPrompt ∅ enterFirst)
  ∧ rr_err (Run maskedPrompt ∅ enterFirst)
    = rr_err (Run lazyPrompt ∅ enterFirst).
Proof.
  assert (Hs : sameInputs lazyPrompt maskedPrompt)
    by (repeat split; reflexivity).
  split; [exact Hs |].
  destruct (display_fields_do_not_change_the_result lazyPrompt maskedPrompt ∅
              enterFirst Hs) as (Hv & He & _).
  split; [exact Hv | exact He].
Defined.
